(** * Deterministic liquidity engine

    A shallow embedding of [portfolio_engine.py]: HQLA eligibility with
    haircuts and caps, the daily roll-up, the behaviour parameter mapper,
    the series combiner, the KPI calculator and the instrument impact
    applier, followed by the properties of the engine's specification.

    Conventions of the embedding.
    - A Python [float] is an exact rational ([Q]); numeric results are
      compared with [==] ([Qeq]).  Rounding, infinities and NaN are outside
      the model.
    - A [datetime] is a number of seconds ([Z]); [.date()] is the day number
      obtained by flooring division by [day_seconds].  A date is held as
      the instant its ISO string parses to; the written form of the string
      is outside the model.
    - A Python dict used as a record (instrument, cashflow, impact, bucket)
      is a [Record]; a key that may be missing is an [option] field.  A dict
      used as a map is a [gmap]. *)

From Stdlib Require Import ZArith QArith Qminmax Qabs Qround Lqa Lia String Ascii
  List Permutation.
From stdpp Require Import gmap strings list fin_maps.

Local Open Scope Q_scope.

(** ** Python numerics *)

Module Py.

Definition Qltb (x y : Q) : bool := negb (Qle_bool y x).

(** [max(a, b)]: the first argument is kept unless the second is strictly
    greater. *)
Definition max (a b : Q) : Q := if Qltb a b then b else a.

(** [min(a, b)]: the first argument is kept unless the second is strictly
    smaller. *)
Definition min (a b : Q) : Q := if Qltb b a then b else a.

(** [x or 0] followed by [float(...)], for a field read with [.get]. *)
Definition float_or0 (o : option Q) : Q := default 0 o.

(** Truthiness of a number: [x] is falsy exactly when it is zero. *)
Definition truthy (x : Q) : bool := negb (Qeq_bool x 0).

(** [sum(l)]: left fold starting from 0. *)
Definition sum (l : list Q) : Q := fold_left Qplus l 0.

(** [l[i:j]] for [0 <= i <= j]. *)
Definition slice {A} (l : list A) (i j : nat) : list A :=
  take (j - i) (drop i l).

End Py.

(** ** Behaviour parameter mapper *)

Record Macro := {
  vix : option Q;
  credit_spreads_baa : option Q;
  credit_spreads_hy : option Q;
  us10y_yield : option Q
}.

Record BehaviorParameters := {
  deposit_runoff_30d_pct : Q;
  notroll_prob_30d : Q;
  notroll_prob_90d : Q;
  margin_factor : Q
}.

(** The literal [{"mild": 0.6, "base": 1.0, "severe": 1.6}]. *)
Definition SEVERITY_TABLE : gmap string Q :=
  <["mild"%string := 0.6]> (<["base"%string := 1.0]>
    (<["severe"%string := 1.6]> ∅)).

Definition scenario_to_behavior_params (macro : Macro) (severity : string)
  : BehaviorParameters :=
  let vix := default 18 (vix macro) in
  let baa := default 180 (credit_spreads_baa macro) in
  let hy := default 400 (credit_spreads_hy macro) in
  let teny := default 4.2 (us10y_yield macro) in
  let sev_mult := default 1.0 (SEVERITY_TABLE !! severity) in
  let base_runoff := 0.5 + 0.01 * (vix - 18) + 0.002 * (baa - 180) in
  let dep_runoff_30d := Py.max 0.3 (Py.min 8.0 (base_runoff * sev_mult)) in
  let base_notroll_30d := 5 + 0.6 * (vix - 18) + 0.05 * (hy - 400) in
  let notroll_30d := Py.max 5 (Py.min 60 (base_notroll_30d * sev_mult)) / 100.0 in
  let notroll_90d := Py.min 90 ((notroll_30d * 100.0) * 1.5) / 100.0 in
  let margin_factor :=
    Py.max 0.5 (Py.min 3.0 (0.8 + 0.04 * (vix - 18) + 0.1 * (teny - 4.2))) in
  let margin_factor := margin_factor * sev_mult in
  {| deposit_runoff_30d_pct := dep_runoff_30d / 100.0;
     notroll_prob_30d := notroll_30d;
     notroll_prob_90d := notroll_90d;
     margin_factor := margin_factor |}.

(** ** Strings: [str.lower] and [str.strip] on ASCII text *)

Definition lower_ascii (c : ascii) : ascii :=
  let n := nat_of_ascii c in
  if ((65 <=? n) && (n <=? 90))%nat then ascii_of_nat (n + 32) else c.

Fixpoint lower (s : string) : string :=
  match s with
  | EmptyString => EmptyString
  | String c r => String (lower_ascii c) (lower r)
  end.

Definition is_space (c : ascii) : bool :=
  let n := nat_of_ascii c in
  (((9 <=? n) && (n <=? 13)) || ((28 <=? n) && (n <=? 32)))%nat.

Fixpoint lstrip (s : string) : string :=
  match s with
  | EmptyString => EmptyString
  | String c r => if is_space c then lstrip r else s
  end.

Fixpoint rstrip (s : string) : string :=
  match s with
  | EmptyString => EmptyString
  | String c r =>
      match rstrip r with
      | EmptyString => if is_space c then EmptyString else String c EmptyString
      | r' => String c r'
      end
  end.

Definition strip (s : string) : string := rstrip (lstrip s).

(** [bool(s)] for a string read with [.get]: missing, null and empty are
    all falsy; [s or ""] maps the three to the empty string. *)
Definition str_or_empty (o : option string) : string := default EmptyString o.

Definition nonempty (s : string) : bool :=
  match s with EmptyString => false | String _ _ => true end.

(** ** Product taxonomy *)

Definition ASSET_TYPES : gset string :=
  {[ "bond"; "mortgage_backed_security"; "loan" ]}%string.

Definition LIAB_TYPES : gset string :=
  {[ "certificate_of_deposit"; "commercial_paper"; "repo";
     "interbank_borrowing"; "fed_funds"; "fed_discount_window";
     "corporate_deposits"; "retail_deposits"; "sme_deposits" ]}%string.

Definition DERIV_TYPES : gset string :=
  {[ "interest_rate_swap"; "futures"; "fx_forward";
     "cross_currency_swap" ]}%string.

(** ** Data model *)

Record Instrument := {
  inst_id : string;
  inst_type : option string;
  hql_level : option string;
  notional : option Q;
  currency : option string;
  stable_funding_factor : option Q
}.

Record Portfolio := {
  reserve : option Q;
  liquidity_profile : list Instrument
}.

(** A [datetime] in seconds; a [date] is a day number. *)
Definition day_seconds : Z := 86400.
Definition date_of (t : Z) : Z := (t / day_seconds)%Z.
Definition timedelta_days (n : Z) : Z := (n * day_seconds)%Z.

Record CashflowEvent := {
  cf_instrument_id : string;
  cf_type : string;
  cf_currency : string;
  cf_date : Z;
  cf_amount : Q
}.

Record Bucket := { b_in : Q; b_out : Q }.

Definition zero_bucket : Bucket := {| b_in := 0.0; b_out := 0.0 |}.

Record InstrumentImpact := {
  imp_id : option string;
  imp_instrument_id : option string;
  imp_action : option string;
  imp_date : option Z;
  imp_amount : option Q;
  imp_new_maturity : option Z
}.

Record KpiSet := {
  hqla : Q;
  worst_30d_outflow : Q;
  lcr : Q;
  survival_days : Z;
  peak_cumulative_outflow : Q
}.

(** ** HQLA with haircuts and caps *)

(** One iteration of the instrument loop, on the accumulators
    [(l1, l2a, l2b)]. *)
Definition hqla_step (acc : Q * Q * Q) (inst : Instrument) : Q * Q * Q :=
  let '(l1, l2a, l2b) := acc in
  let t := lower (str_or_empty (inst_type inst)) in
  let lvl := lower (strip (str_or_empty (hql_level inst))) in
  let notional := Py.float_or0 (notional inst) in
  let is_asset_like := bool_decide (t ∈ ASSET_TYPES) in
  let has_hqla_tag_not_liability :=
    nonempty lvl && negb (bool_decide (t ∈ LIAB_TYPES)) in
  if Qle_bool notional 0 then acc
  else if negb (is_asset_like || has_hqla_tag_not_liability) then acc
  else if String.eqb lvl "level 1" then (l1 + notional, l2a, l2b)
  else if String.eqb lvl "level 2a" then (l1, l2a + notional * 0.85, l2b)
  else if String.eqb lvl "level 2b" then (l1, l2a, l2b + notional * 0.50)
  else acc.

(** The accumulators after the haircut loop. *)
Definition hqla_haircut (portfolio : Portfolio) : Q * Q * Q :=
  fold_left hqla_step (liquidity_profile portfolio)
            (Py.float_or0 (reserve portfolio), 0.0, 0.0).

(** The values of [(l1, l2a, l2b)] at the final [return], or [None] when
    the function leaves through [return 0.0]. *)
Definition hqla_levels (portfolio : Portfolio) : option (Q * Q * Q) :=
  let '(l1, l2a, l2b) := hqla_haircut portfolio in
  let total := l1 + l2a + l2b in
  if Qle_bool total 0 then None
  else
    let cap_2b := 0.15 * total in
    let l2b := if Py.Qltb cap_2b l2b then cap_2b else l2b in
    let total := l1 + l2a + l2b in
    let cap_l2 := 0.40 * total in
    if Py.Qltb cap_l2 (l2a + l2b) then
      let scale := cap_l2 / (l2a + l2b + 1e-12) in
      Some (l1, l2a * scale, l2b * scale)
    else Some (l1, l2a, l2b).

Definition compute_hqla_eligible (portfolio : Portfolio) : Q :=
  match hqla_levels portfolio with
  | None => 0.0
  | Some (l1, l2a, l2b) => Py.max 0.0 (l1 + l2a + l2b)
  end.

(** ** Daily roll-up *)

(** [daily[key]['in'] += amt] and [daily[key]['out'] += amt] on a
    [defaultdict] whose missing entries read as the zero bucket. *)
Definition bucket_at (daily : gmap Z Bucket) (key : Z) : Bucket :=
  default zero_bucket (daily !! key).

Definition add_in (daily : gmap Z Bucket) (key : Z) (amt : Q) : gmap Z Bucket :=
  let b := bucket_at daily key in
  <[key := {| b_in := b_in b + amt; b_out := b_out b |}]> daily.

Definition add_out (daily : gmap Z Bucket) (key : Z) (amt : Q) : gmap Z Bucket :=
  let b := bucket_at daily key in
  <[key := {| b_in := b_in b; b_out := b_out b + amt |}]> daily.

Definition roll_step (asof end_ : Z) (daily : gmap Z Bucket)
    (cf : CashflowEvent) : gmap Z Bucket :=
  let d := cf_date cf in
  if ((asof <? d) && (d <=? end_))%Z then
    let amt := cf_amount cf in
    if Qle_bool 0 amt then add_in daily (date_of d) amt
    else add_out daily (date_of d) (- amt)
  else daily.

Definition roll_daily_contractual_flows_detail
    (cashflows : list CashflowEvent) (as_of : Z) (horizon_days : Z)
  : gmap Z Bucket :=
  let asof := as_of in
  let end_ := (asof + timedelta_days horizon_days)%Z in
  fold_left (roll_step asof end_) cashflows ∅.

(** ** Series combiner *)

(** The inner loop [for d, io in s.items()]: each date of [s] is visited
    once. *)
Definition combine_one (out s : gmap Z Bucket) : gmap Z Bucket :=
  map_fold (fun d io out =>
              let b := bucket_at out d in
              <[d := {| b_in := b_in b + b_in io;
                        b_out := b_out b + b_out io |}]> out)
           out s.

Definition combine_daily_detail (series : list (gmap Z Bucket))
  : gmap Z Bucket :=
  fold_left combine_one series ∅.

(** ** KPI calculator *)

(** [detail.get(d, {}).get('in', 0.0)] and its [out] twin. *)
Definition get_in (detail : gmap Z Bucket) (d : Z) : Q :=
  match detail !! d with Some b => b_in b | None => 0.0 end.

Definition get_out (detail : gmap Z Bucket) (d : Z) : Q :=
  match detail !! d with Some b => b_out b | None => 0.0 end.

Definition kpi_days (as_of horizon_days : Z) : list Z :=
  (fun i => date_of (as_of + timedelta_days i)) <$> seqZ 1 horizon_days.

(** One iteration of the sliding-window loop. *)
Definition worst_step (inflow outflow : list Q) (worst_30 : Q) (i : nat) : Q :=
  let win_in := Py.sum (Py.slice inflow i (i + 30)) in
  let win_out := Py.sum (Py.slice outflow i (i + 30)) in
  let capped_in := Py.min win_in (0.75 * win_out) in
  let net := Py.max 0.0 (win_out - capped_in) in
  Py.max worst_30 net.

Definition worst_30_loop (inflow outflow : list Q) (n_days : nat) : Q :=
  fold_left (worst_step inflow outflow) (seq 0 (n_days - 29)) 1.0.

(** One iteration of the survival scan, on [(cum, peak, survival)]. *)
Definition survival_step (inflow outflow : list Q) (hqla_base : Q)
    (st : Q * Q * option nat) (idx : nat) : Q * Q * option nat :=
  let '(cum, peak, survival) := st in
  let cum := cum + (nth idx outflow 0 - nth idx inflow 0) in
  let peak := Py.max peak cum in
  let survival :=
    match survival with
    | None => if Py.Qltb hqla_base cum then Some (idx + 1)%nat else None
    | Some s => Some s
    end in
  (cum, peak, survival).

Definition survival_loop (inflow outflow : list Q) (hqla_base : Q)
    (n_days : nat) : Q * Q * option nat :=
  fold_left (survival_step inflow outflow hqla_base) (seq 0 n_days)
            (0.0, 0.0, None).

Definition compute_kpis_from_daily_detail (detail : gmap Z Bucket)
    (as_of : Z) (hqla_base : Q) (horizon_days : Z) : KpiSet :=
  let days := kpi_days as_of horizon_days in
  let inflow := get_in detail <$> days in
  let outflow := get_out detail <$> days in
  let worst_30 := worst_30_loop inflow outflow (length days) in
  let lcr := hqla_base / worst_30 in
  let '(_, peak, survival) :=
    survival_loop inflow outflow hqla_base (length days) in
  {| hqla := hqla_base;
     worst_30d_outflow := worst_30;
     lcr := lcr;
     survival_days :=
       match survival with
       | Some s => Z.of_nat s
       | None => horizon_days
       end;
     peak_cumulative_outflow := peak |}.

(** ** Instrument impact applier *)

(** [{i["id"]: i for i in portfolio.get("liquidity_profile", [])}]: a later
    instrument with the same id replaces an earlier one. *)
Definition build_inst_map (profile : list Instrument) : gmap string Instrument :=
  fold_left (fun m i => <[inst_id i := i]> m) profile ∅.

(** [futures.setdefault(cf["instrument_id"], []).append(cf)] for the
    cashflows dated strictly after the anchor. *)
Definition futures_step (asof : Z) (futures : gmap string (list CashflowEvent))
    (cf : CashflowEvent) : gmap string (list CashflowEvent) :=
  let d := cf_date cf in
  if (asof <? d)%Z then
    let k := cf_instrument_id cf in
    <[k := default [] (futures !! k) ++ [cf]]> futures
  else futures.

(** [list.sort(key=lambda x: x["date"])]: a stable sort, so cashflows with
    equal dates keep their relative order.  The source compares the dates
    as they are written; a date is held here as its instant, which gives
    the same order when the ledger writes all its dates in one ISO form.
    The properties below use of the sort only that it permutes the legs,
    or are stated for the leg that [first_future_cf] returns. *)
Fixpoint insert_by_date (cf : CashflowEvent) (l : list CashflowEvent)
  : list CashflowEvent :=
  match l with
  | [] => [cf]
  | x :: r =>
      if (cf_date cf <=? cf_date x)%Z then cf :: l
      else x :: insert_by_date cf r
  end.

Definition sort_by_date (l : list CashflowEvent) : list CashflowEvent :=
  foldr insert_by_date [] l.

Definition build_futures (cashflows : list CashflowEvent) (asof : Z)
  : gmap string (list CashflowEvent) :=
  sort_by_date <$> fold_left (futures_step asof) cashflows ∅.

Definition first_future_cf (futures : gmap string (list CashflowEvent))
    (inst_id : string) : option CashflowEvent :=
  head (default [] (futures !! inst_id)).

(** [action == s] and [action in {...}] for an action read with [.get]. *)
Definition action_is (action : option string) (s : string) : bool :=
  match action with Some a => String.eqb a s | None => false end.

Definition action_in (action : option string) (ss : gset string) : bool :=
  match action with Some a => bool_decide (a ∈ ss) | None => false end.

(** The local function [add_cf], on the list being extended. *)
Definition add_cf (inst_id typ ccy : string) (new_cfs : list CashflowEvent)
    (amount : Q) (date : Z) : list CashflowEvent :=
  new_cfs ++ [ {| cf_instrument_id := inst_id;
                  cf_type := typ;
                  cf_currency := ccy;
                  cf_date := date;
                  cf_amount := amount |} ].

(** The body of [for imp in impacts or []]. *)
Definition apply_impact (inst_map : gmap string Instrument)
    (futures : gmap string (list CashflowEvent))
    (new_cfs : list CashflowEvent) (imp : InstrumentImpact)
  : list CashflowEvent :=
  let action := imp_action imp in
  let amt := Py.float_or0 (imp_amount imp) in
  let new_mat := imp_new_maturity imp in
  match imp_id imp, imp_id imp ≫= (inst_map !!.), imp_date imp with
  | Some inst_id, Some inst, Some date_s =>
      if Qle_bool amt 0 then new_cfs
      else
        let ccy := default "USD"%string (currency inst) in
        let typ := lower (default "other"%string (inst_type inst)) in
        let old_cf := first_future_cf futures inst_id in
        let old_amt :=
          match old_cf with Some cf => cf_amount cf | None => 0.0 end in
        let old_date := cf_date <$> old_cf in
        let add_cf := add_cf inst_id typ ccy in
        if action_is action "margin_call" || action_is action "exercise_option"
        then add_cf new_cfs (- amt) date_s
        else if bool_decide (typ ∈ LIAB_TYPES) then
          if action_in action {[ "prepay"; "not_rollover"; "terminate" ]}%string
          then
            let cfs := add_cf new_cfs (- amt) date_s in
            match old_date with
            | Some od => add_cf cfs amt od
            | None => cfs
            end
          else
            match action_is action "extend_maturity", new_mat with
            | true, Some nm =>
                let cfs :=
                  match old_date with
                  | Some od => add_cf new_cfs (Qabs old_amt) od
                  | None => new_cfs
                  end in
                add_cf cfs (- Qabs (if Py.truthy amt then amt else old_amt)) nm
            | _, _ => new_cfs
            end
        else if bool_decide (typ ∈ ASSET_TYPES) then
          if action_in action {[ "prepay"; "terminate" ]}%string then
            let cfs := add_cf new_cfs amt date_s in
            match old_date with
            | Some od => add_cf cfs (- amt) od
            | None => cfs
            end
          else
            match action_is action "extend_maturity", new_mat with
            | true, Some nm =>
                let cfs :=
                  match old_date with
                  | Some od => add_cf new_cfs (- Qabs old_amt) od
                  | None => new_cfs
                  end in
                add_cf cfs (Qabs (if Py.truthy amt then amt else old_amt)) nm
            | _, _ => new_cfs
            end
        else add_cf new_cfs (- amt) date_s
  | _, _, _ => new_cfs
  end.

Definition apply_instrument_impacts_to_cashflows
    (cashflows : list CashflowEvent) (portfolio : Portfolio)
    (impacts : list InstrumentImpact) (as_of : Z) : list CashflowEvent :=
  let asof := as_of in
  let inst_map := build_inst_map (liquidity_profile portfolio) in
  let futures := build_futures cashflows asof in
  fold_left (apply_impact inst_map futures) impacts cashflows.

(** ** The specification's vocabulary *)

(** [clamp(x, lo, hi)] as the specification uses it. *)
Definition clamp (x lo hi : Q) : Q :=
  if Py.Qltb x lo then lo else if Py.Qltb hi x then hi else x.

(** "Severity multiplier: mild=0.6, base=1.0, severe=1.6", anything else
    neutral. *)
Definition severity_multiplier (severity : string) : Q :=
  if String.eqb severity "mild" then 0.6
  else if String.eqb severity "base" then 1.0
  else if String.eqb severity "severe" then 1.6
  else 1.0.

(** [0.5 + 0.01·(vix−18) + 0.002·(baa−180)] with the defaults for absent
    fields. *)
Definition base_runoff_pct (macro : Macro) : Q :=
  0.5 + 0.01 * (default 18 (vix macro) - 18)
      + 0.002 * (default 180 (credit_spreads_baa macro) - 180).

(** The calendar day [k] days after the anchor. *)
Definition day_after (as_of k : Z) : Z := date_of (as_of + timedelta_days k).

(** The sum of one leg of the series over the 30 days [s .. s+29] after
    the anchor. *)
Definition window_sum (leg : gmap Z Bucket -> Z -> Q) (detail : gmap Z Bucket)
    (as_of s : Z) : Q :=
  foldr (fun k acc => leg detail (day_after as_of k) + acc) 0 (seqZ s 30).

(** "net = max(0, outflow_sum − min(inflow_sum, 0.75×outflow_sum))" for the
    window that starts on day [s]. *)
Definition window_net (detail : gmap Z Bucket) (as_of s : Z) : Q :=
  let o := window_sum get_out detail as_of s in
  let i := window_sum get_in detail as_of s in
  Qmax 0 (o - Qmin i (0.75 * o)).

(** The cumulative sum of (outflow − inflow) over days [1 .. k] after the
    anchor. *)
Fixpoint cumulative_net (detail : gmap Z Bucket) (as_of : Z) (k : nat) : Q :=
  match k with
  | O => 0
  | S j =>
      cumulative_net detail as_of j
      + (get_out detail (day_after as_of (Z.of_nat (S j)))
         - get_in detail (day_after as_of (Z.of_nat (S j))))
  end.

(** The net outflow the loop computes for the window at index [i]. *)
Definition loop_net (inflow outflow : list Q) (i : nat) : Q :=
  let win_in := Py.sum (Py.slice inflow i (i + 30)) in
  let win_out := Py.sum (Py.slice outflow i (i + 30)) in
  Py.max 0.0 (win_out - Py.min win_in (0.75 * win_out)).

(** What the survival scan has found after [n] days: the first day on
    which the cumulative net outflow exceeds the stock, if there is one so
    far. *)
Definition scan_found (detail : gmap Z Bucket) (as_of : Z) (hqla_base : Q)
    (n : nat) (survival : option nat) : Prop :=
  match survival with
  | Some k =>
      (1 <= k <= n)%nat /\ hqla_base < cumulative_net detail as_of k /\
      forall j, (1 <= j < k)%nat -> cumulative_net detail as_of j <= hqla_base
  | None =>
      forall j, (1 <= j <= n)%nat -> cumulative_net detail as_of j <= hqla_base
  end.

(** Equality of two daily series as Python compares dicts: the same dates,
    and numerically equal legs at each date. *)
Definition series_eq (r s : gmap Z Bucket) : Prop :=
  forall d,
    match r !! d, s !! d with
    | Some a, Some b => b_in a == b_in b /\ b_out a == b_out b
    | None, None => True
    | _, _ => False
    end.

(** A series all of whose entries are [{in: 0, out: 0}]. *)
Definition all_zero (z : gmap Z Bucket) : Prop :=
  forall d b, z !! d = Some b -> b_in b == 0 /\ b_out b == 0.

(** The future legs of an instrument: its cashflows dated strictly after
    the anchor, in schedule order. *)
Definition future_legs (cashflows : list CashflowEvent) (asof : Z)
    (inst_id : string) : list CashflowEvent :=
  filter (fun cf => (asof < cf_date cf)%Z /\ cf_instrument_id cf = inst_id)
         cashflows.

(** An impact that the applier drops: its instrument lookup finds nothing,
    its date is absent, or its amount is not positive. *)
Definition malformed (inst_map : gmap string Instrument)
    (imp : InstrumentImpact) : Prop :=
  imp_id imp ≫= (inst_map !!.) = None \/
  imp_date imp = None \/
  Py.float_or0 (imp_amount imp) <= 0.

(** The net flow (in − out) of a series on one date. *)
Definition bucket_net (daily : gmap Z Bucket) (d : Z) : Q :=
  b_in (bucket_at daily d) - b_out (bucket_at daily d).

(** The event [add_cf] appends for an instrument. *)
Definition impact_event (inst_id : string) (inst : Instrument)
    (amount : Q) (date : Z) : CashflowEvent :=
  {| cf_instrument_id := inst_id;
     cf_type := lower (default "other"%string (inst_type inst));
     cf_currency := default "USD"%string (currency inst);
     cf_date := date;
     cf_amount := amount |}.

(** ** Sample data *)

Definition sample_cd : Instrument :=
  {| inst_id := "CD1"; inst_type := Some "certificate_of_deposit"%string;
     hql_level := None; notional := Some 1000;
     currency := Some "USD"%string; stable_funding_factor := None |}.

Definition sample_portfolio : Portfolio :=
  {| reserve := Some 100; liquidity_profile := [sample_cd] |}.

(** A scheduled outflow of 100 of [sample_cd], 40 days after the anchor 0. *)
Definition sample_leg : CashflowEvent :=
  {| cf_instrument_id := "CD1"; cf_type := "certificate_of_deposit";
     cf_currency := "USD"; cf_date := 40 * 86400; cf_amount := -100 |}.

Definition sample_impact (action : string) (amount : Q)
    (new_maturity : option Z) : InstrumentImpact :=
  {| imp_id := Some "CD1"%string; imp_instrument_id := None;
     imp_action := Some action; imp_date := Some (5 * 86400)%Z;
     imp_amount := Some amount; imp_new_maturity := new_maturity |}.

(** ** Size proxies *)

Record SizeProxies := {
  deposit_base : Q;
  wholesale_base : Q;
  ir_notionals : Q;
  fx_notionals : Q
}.

Definition DEPOSIT_TYPES : gset string :=
  {[ "certificate_of_deposit"; "retail_deposits"; "sme_deposits";
     "corporate_deposits" ]}%string.

Definition WHOLESALE_TYPES : gset string :=
  {[ "repo"; "commercial_paper"; "interbank_borrowing"; "fed_funds";
     "fed_discount_window" ]}%string.

Definition IR_TYPES : gset string :=
  {[ "interest_rate_swap"; "bond"; "futures";
     "mortgage_backed_security" ]}%string.

Definition FX_TYPES : gset string :=
  {[ "fx_forward"; "cross_currency_swap" ]}%string.

(** [t in (...)] for a type read with [.get]: a missing type is in no
    list.  The type is compared as written, without lowercasing. *)
Definition type_in (t : option string) (ss : gset string) : bool :=
  match t with Some a => bool_decide (a ∈ ss) | None => false end.

(** One iteration of the instrument loop of [compute_size_proxies]: four
    independent [if] statements. *)
Definition size_step (acc : SizeProxies) (inst : Instrument) : SizeProxies :=
  let t := inst_type inst in
  let notional := Py.float_or0 (notional inst) in
  {| deposit_base :=
       if type_in t DEPOSIT_TYPES then deposit_base acc + notional
       else deposit_base acc;
     wholesale_base :=
       if type_in t WHOLESALE_TYPES then wholesale_base acc + notional
       else wholesale_base acc;
     ir_notionals :=
       if type_in t IR_TYPES then ir_notionals acc + notional
       else ir_notionals acc;
     fx_notionals :=
       if type_in t FX_TYPES then fx_notionals acc + notional
       else fx_notionals acc |}.

Definition compute_size_proxies (portfolio : Portfolio) : SizeProxies :=
  fold_left size_step (liquidity_profile portfolio)
            {| deposit_base := 0.0; wholesale_base := 0.0;
               ir_notionals := 0.0; fx_notionals := 0.0 |}.

(** ** Behavioural series estimator *)

(** [for i in range(first, first + count):
       daily[(asof + timedelta(days=i)).date()]['out'] += amt]. *)
Definition spread_out (daily : gmap Z Bucket) (asof first count : Z) (amt : Q)
  : gmap Z Bucket :=
  fold_left (fun daily i => add_out daily (date_of (asof + timedelta_days i)) amt)
            (seqZ first count) daily.

(** The deposit loop: the notional of each deposit, scaled up as its stable
    funding factor falls. *)
Definition dep_step (dep_total : Q) (inst : Instrument) : Q :=
  if type_in (inst_type inst) DEPOSIT_TYPES then
    let n := Py.float_or0 (notional inst) in
    let sff := default 0.6 (stable_funding_factor inst) in
    let adj := 1.0 + 0.75 * (1.0 - Py.max 0.0 (Py.min 1.0 sff)) in
    dep_total + n * adj
  else dep_total.

Definition wholesale_step (wholesale_base : Q) (inst : Instrument) : Q :=
  if type_in (inst_type inst) WHOLESALE_TYPES
  then wholesale_base + Py.float_or0 (notional inst)
  else wholesale_base.

(** The margin loop, on [(ir_notionals, fx_notionals)]. *)
Definition margin_step (acc : Q * Q) (inst : Instrument) : Q * Q :=
  let '(ir, fx) := acc in
  let t := inst_type inst in
  let n := Py.float_or0 (notional inst) in
  let ir := if type_in t IR_TYPES then ir + n else ir in
  let fx := if type_in t FX_TYPES then fx + n else fx in
  (ir, fx).

Definition behavioral_runoff_amt (portfolio : Portfolio)
    (behavior : BehaviorParameters) : Q :=
  fold_left dep_step (liquidity_profile portfolio) 0.0
  * deposit_runoff_30d_pct behavior.

Definition behavioral_out_30 (portfolio : Portfolio)
    (behavior : BehaviorParameters) : Q :=
  fold_left wholesale_step (liquidity_profile portfolio) 0.0
  * notroll_prob_30d behavior * 0.5.

Definition behavioral_out_90 (portfolio : Portfolio)
    (behavior : BehaviorParameters) : Q :=
  fold_left wholesale_step (liquidity_profile portfolio) 0.0
  * Py.max 0.0 (notroll_prob_90d behavior - notroll_prob_30d behavior) * 0.5.

Definition behavioral_margin_total (portfolio : Portfolio)
    (behavior : BehaviorParameters) : Q :=
  let '(ir_notionals, fx_notionals) :=
    fold_left margin_step (liquidity_profile portfolio) (0.0, 0.0) in
  0.001 * (ir_notionals + fx_notionals) * margin_factor behavior.

(** [horizon_days] is accepted and not used: the windows are 30, 90 and 7
    days whatever the horizon. *)
Definition estimate_behavioral_series_detail (portfolio : Portfolio)
    (as_of : Z) (behavior : BehaviorParameters) (horizon_days : Z)
  : gmap Z Bucket :=
  let asof := as_of in
  let daily : gmap Z Bucket := ∅ in
  let runoff_amt := behavioral_runoff_amt portfolio behavior in
  let daily :=
    if Py.Qltb 0 runoff_amt
    then spread_out daily asof 1 30 (runoff_amt / 30.0)
    else daily in
  let out_30 := behavioral_out_30 portfolio behavior in
  let out_90 := behavioral_out_90 portfolio behavior in
  let daily := spread_out daily asof 1 30 (out_30 / 30.0) in
  let daily := spread_out daily asof 31 60 (out_90 / 60.0) in
  let margin_total := behavioral_margin_total portfolio behavior in
  let daily :=
    if Py.Qltb 0 margin_total
    then spread_out daily asof 1 7 (margin_total / 7.0)
    else daily in
  daily.

(** ** Gap to targets *)

(** [round(x)] to the nearest integer, ties to the even one. *)
Definition round_half_even (x : Q) : Z :=
  let f := Qfloor x in
  let r := x - inject_Z f in
  if Py.Qltb r (1 # 2) then f
  else if Py.Qltb (1 # 2) r then (f + 1)%Z
  else if Z.even f then f else (f + 1)%Z.

(** [round(x, ndigits)] on an exact rational. *)
Definition py_round (x : Q) (ndigits : nat) : Q :=
  inject_Z (round_half_even (x * inject_Z (10 ^ Z.of_nat ndigits)))
  / inject_Z (10 ^ Z.of_nat ndigits).

(** The KPI dict as [compute_gap_to_targets] reads it, each key with
    [.get]. *)
Record KpiDict := {
  kd_hqla : option Q;
  kd_worst_30d_outflow : option Q;
  kd_lcr : option Q;
  kd_survival_days : option Z;
  kd_peak_cumulative_outflow : option Q
}.

(** The dict returned by [compute_kpis_from_daily_detail]: every key is
    present. *)
Definition kpi_dict (k : KpiSet) : KpiDict :=
  {| kd_hqla := Some (hqla k);
     kd_worst_30d_outflow := Some (worst_30d_outflow k);
     kd_lcr := Some (lcr k);
     kd_survival_days := Some (survival_days k);
     kd_peak_cumulative_outflow := Some (peak_cumulative_outflow k) |}.

Record GapToTargets := {
  lcr_target_ratio : Q;
  survival_target_days : Z;
  addl_hqla_needed_for_lcr_target_usd : Q;
  addl_hqla_needed_for_survival_target_usd : Q;
  binding_metric : string;
  binding_gap_usd : Q
}.

(** The local [lcr_gap] and [survival_gap], before rounding. *)
Definition lcr_gap (kpis : KpiDict) (lcr_target : Q) : Q :=
  let hqla := default 0.0 (kd_hqla kpis) in
  let worst_30 := default 0.0 (kd_worst_30d_outflow kpis) in
  Py.max 0.0 (lcr_target * worst_30 - hqla).

Definition survival_gap (kpis : KpiDict) : Q :=
  let hqla := default 0.0 (kd_hqla kpis) in
  let peak_cum := default 0.0 (kd_peak_cumulative_outflow kpis) in
  Py.max 0.0 (peak_cum - hqla).

Definition compute_gap_to_targets (kpis : KpiDict) (lcr_target : Q)
    (survival_target_days : Z) : GapToTargets :=
  let survival_days :=
    default survival_target_days (kd_survival_days kpis) in
  let lcr_gap := lcr_gap kpis lcr_target in
  let survival_gap := survival_gap kpis in
  let lcr_ratio := default 0.0 (kd_lcr kpis) in
  let '(binding, binding_gap) :=
    if Py.Qltb lcr_ratio lcr_target then ("lcr"%string, lcr_gap)
    else if (survival_days <? survival_target_days)%Z
         then ("survival"%string, survival_gap)
         else ("none"%string, 0.0) in
  {| lcr_target_ratio := lcr_target;
     survival_target_days := survival_target_days;
     addl_hqla_needed_for_lcr_target_usd := py_round lcr_gap 2;
     addl_hqla_needed_for_survival_target_usd := py_round survival_gap 2;
     binding_metric := binding;
     binding_gap_usd := py_round binding_gap 2 |}.

(** ** Vocabulary for the roll-up and the combiner *)

(** The event is dated strictly after the anchor and at most
    [horizon_days] days after it. *)
Definition in_window (as_of horizon_days : Z) (cf : CashflowEvent) : bool :=
  ((as_of <? cf_date cf) && (cf_date cf <=? as_of + timedelta_days horizon_days))%Z.

(** The inflows of a ledger on one day: the non-negative amounts of the
    events of that day that fall in the window. *)
Definition day_inflow (cashflows : list CashflowEvent) (as_of horizon_days : Z)
    (d : Z) : Q :=
  foldr (fun cf acc =>
           (if in_window as_of horizon_days cf
               && (date_of (cf_date cf) =? d)%Z
               && Qle_bool 0 (cf_amount cf)
            then cf_amount cf else 0) + acc)
        0 cashflows.

(** The outflows of a ledger on one day: the magnitudes of the negative
    amounts of the events of that day that fall in the window. *)
Definition day_outflow (cashflows : list CashflowEvent) (as_of horizon_days : Z)
    (d : Z) : Q :=
  foldr (fun cf acc =>
           (if in_window as_of horizon_days cf
               && (date_of (cf_date cf) =? d)%Z
               && negb (Qle_bool 0 (cf_amount cf))
            then - cf_amount cf else 0) + acc)
        0 cashflows.

(** The sum of one leg of several series on one date. *)
Definition series_sum (leg : gmap Z Bucket -> Z -> Q)
    (series : list (gmap Z Bucket)) (d : Z) : Q :=
  foldr (fun s acc => leg s d + acc) 0 series.

(** ** Vocabulary for the impact applier *)

(** An impact the applier acts on: its ["id"] names the instrument [inst]
    of the portfolio, it has the date [date_s] and the positive amount
    [amt]. *)
Definition well_formed (portfolio : Portfolio) (imp : InstrumentImpact)
    (id : string) (inst : Instrument) (date_s : Z) (amt : Q) : Prop :=
  imp_id imp = Some id /\
  build_inst_map (liquidity_profile portfolio) !! id = Some inst /\
  imp_date imp = Some date_s /\
  imp_amount imp = Some amt /\
  0 < amt.

(** The impact [imp], applied after the impacts [before], appends exactly
    the events [events]. *)
Definition appends (cashflows : list CashflowEvent) (portfolio : Portfolio)
    (as_of : Z) (before : list InstrumentImpact) (imp : InstrumentImpact)
    (events : list CashflowEvent) : Prop :=
  apply_instrument_impacts_to_cashflows cashflows portfolio
    (before ++ [imp]) as_of
  = apply_instrument_impacts_to_cashflows cashflows portfolio before as_of
    ++ events.

(** The type the applier dispatches on. *)
Definition dispatch_type (inst : Instrument) : string :=
  lower (default "other"%string (inst_type inst)).

(** The original leg of an instrument, as the applier finds it. *)
Definition original_leg (cashflows : list CashflowEvent) (as_of : Z)
    (id : string) : option CashflowEvent :=
  first_future_cf (build_futures cashflows as_of) id.

(** A sample bond and one scheduled inflow of it. *)
Definition sample_bond : Instrument :=
  {| inst_id := "BND1"; inst_type := Some "Bond"%string;
     hql_level := Some "Level 1"%string; notional := Some 500;
     currency := None; stable_funding_factor := None |}.

Definition sample_swap : Instrument :=
  {| inst_id := "IRS1"; inst_type := Some "interest_rate_swap"%string;
     hql_level := None; notional := Some 2000;
     currency := Some "EUR"%string; stable_funding_factor := None |}.

Definition sample_book : Portfolio :=
  {| reserve := Some 100;
     liquidity_profile := [sample_cd; sample_bond; sample_swap] |}.

Definition sample_coupon : CashflowEvent :=
  {| cf_instrument_id := "BND1"; cf_type := "bond";
     cf_currency := "USD"; cf_date := 60 * 86400; cf_amount := 500 |}.

Definition impact_on (id action : string) (amount : Q)
    (new_maturity : option Z) : InstrumentImpact :=
  {| imp_id := Some id; imp_instrument_id := None;
     imp_action := Some action; imp_date := Some (5 * 86400)%Z;
     imp_amount := Some amount; imp_new_maturity := new_maturity |}.

(** ** Vocabulary for the behavioural series *)

(** [x] when it is positive, zero otherwise: an overlay guarded by
    [if x > 0]. *)
Definition positive_part (x : Q) : Q := if Py.Qltb 0 x then x else 0.

(** [1] on the days [first .. last] after the anchor, [0] elsewhere. *)
Definition on_days (first last i : Z) : Q :=
  if ((first <=? i) && (i <=? last))%Z then 1 else 0.

(** The behavioural outflow of the day [i] days after the anchor: the
    deposit runoff and half the 30-day non-roll mass over days 1-30, half
    the incremental 90-day mass over days 31-90, the margin calls over
    days 1-7. *)
Definition behavioural_day_out (portfolio : Portfolio)
    (behavior : BehaviorParameters) (i : Z) : Q :=
  on_days 1 30 i
  * (positive_part (behavioral_runoff_amt portfolio behavior) / 30
     + behavioral_out_30 portfolio behavior / 30)
  + on_days 31 90 i * (behavioral_out_90 portfolio behavior / 60)
  + on_days 1 7 i
    * (positive_part (behavioral_margin_total portfolio behavior) / 7).

(** The sum of the notionals, read with the zero default. *)
Definition total_notional (l : list Instrument) : Q :=
  foldr (fun inst acc => Py.float_or0 (notional inst) + acc) 0 l.

(** The sum of the notionals of the instruments whose type is in a list. *)
Definition typed_notional (ss : gset string) (l : list Instrument) : Q :=
  foldr (fun inst acc =>
           (if type_in (inst_type inst) ss
            then Py.float_or0 (notional inst) else 0) + acc)
        0 l.

(* ===================================================================== *)
(** * Properties *)
(* ===================================================================== *)

(** ** Facts about the Python numerics *)

Section PyFacts.

Lemma Qltb_lt x y : Py.Qltb x y = true <-> x < y.
Proof.
  unfold Py.Qltb. rewrite negb_true_iff.
  destruct (Qle_bool y x) eqn:E.
  - apply Qle_bool_iff in E. split; [discriminate | lra].
  - split; [intros _ | reflexivity].
    destruct (Qlt_le_dec x y) as [H|H]; [exact H |].
    apply Qle_bool_iff in H. congruence.
Qed.

Lemma Qltb_ge x y : Py.Qltb x y = false <-> y <= x.
Proof.
  destruct (Py.Qltb x y) eqn:E.
  - apply Qltb_lt in E. split; [discriminate | lra].
  - split; [intros _ | reflexivity].
    destruct (Qlt_le_dec x y) as [H|H]; [| exact H].
    apply Qltb_lt in H. congruence.
Qed.

Lemma max_spec a b :
  (a < b /\ Py.max a b = b) \/ (b <= a /\ Py.max a b = a).
Proof.
  unfold Py.max. destruct (Py.Qltb a b) eqn:E.
  - left. split; [by apply Qltb_lt | reflexivity].
  - right. split; [by apply Qltb_ge | reflexivity].
Qed.

Lemma min_spec a b :
  (b < a /\ Py.min a b = b) \/ (a <= b /\ Py.min a b = a).
Proof.
  unfold Py.min. destruct (Py.Qltb b a) eqn:E.
  - left. split; [by apply Qltb_lt | reflexivity].
  - right. split; [by apply Qltb_ge | reflexivity].
Qed.

Lemma clamp_spec x lo hi :
  (x < lo /\ clamp x lo hi = lo) \/
  (lo <= x /\ hi < x /\ clamp x lo hi = hi) \/
  (lo <= x /\ x <= hi /\ clamp x lo hi = x).
Proof.
  unfold clamp. destruct (Py.Qltb x lo) eqn:E1.
  - left. split; [by apply Qltb_lt | reflexivity].
  - right. apply Qltb_ge in E1. destruct (Py.Qltb hi x) eqn:E2.
    + left. apply Qltb_lt in E2. auto.
    + right. apply Qltb_ge in E2. auto.
Qed.

Lemma max_ge_l a b : a <= Py.max a b.
Proof. destruct (max_spec a b) as [[? ->]|[? ->]]; lra. Qed.

Lemma max_ge_r a b : b <= Py.max a b.
Proof. destruct (max_spec a b) as [[? ->]|[? ->]]; lra. Qed.

Lemma max_lub a b c : a <= c -> b <= c -> Py.max a b <= c.
Proof. intros. destruct (max_spec a b) as [[? ->]|[? ->]]; lra. Qed.

Lemma max_mono a a' b b' : a <= a' -> b <= b' -> Py.max a b <= Py.max a' b'.
Proof.
  intros. destruct (max_spec a b) as [[? ->]|[? ->]],
                   (max_spec a' b') as [[? ->]|[? ->]]; lra.
Qed.

#[global] Instance max_proper : Proper (Qeq ==> Qeq ==> Qeq) Py.max.
Proof.
  intros a a' Ha b b' Hb.
  destruct (max_spec a b) as [[? ->]|[? ->]],
           (max_spec a' b') as [[? ->]|[? ->]]; lra.
Qed.

#[global] Instance min_proper : Proper (Qeq ==> Qeq ==> Qeq) Py.min.
Proof.
  intros a a' Ha b b' Hb.
  destruct (min_spec a b) as [[? ->]|[? ->]],
           (min_spec a' b') as [[? ->]|[? ->]]; lra.
Qed.

End PyFacts.

(** Case analysis on every [Py.max], [Py.min] and [clamp] of the goal. *)
Ltac py_case spec t :=
  let m := fresh "m" in
  let Em := fresh "Em" in
  let E := fresh "E" in
  remember t as m eqn:Em in *;
  first [ destruct spec as [(? & E)|[(? & ? & E)|(? & ? & E)]]
        | destruct spec as [(? & E)|(? & E)] ];
  rewrite E in Em; clear E; subst m.

Ltac py_minmax :=
  repeat match goal with
  | |- context [Py.max ?a ?b] => py_case (max_spec a b) (Py.max a b)
  | |- context [Py.min ?a ?b] => py_case (min_spec a b) (Py.min a b)
  | |- context [clamp ?x ?lo ?hi] => py_case (clamp_spec x lo hi) (clamp x lo hi)
  | _ : context [Py.max ?a ?b] |- _ => py_case (max_spec a b) (Py.max a b)
  | _ : context [Py.min ?a ?b] |- _ => py_case (min_spec a b) (Py.min a b)
  end.

(** ** Behaviour parameter mapper *)

Lemma severity_lookup severity :
  default 1.0 (SEVERITY_TABLE !! severity) = severity_multiplier severity.
Proof.
  unfold SEVERITY_TABLE, severity_multiplier.
  destruct (String.eqb_spec severity "mild") as [->|Hm]; [reflexivity |].
  rewrite lookup_insert_ne by congruence.
  destruct (String.eqb_spec severity "base") as [->|Hb]; [reflexivity |].
  rewrite lookup_insert_ne by congruence.
  destruct (String.eqb_spec severity "severe") as [->|Hs]; [reflexivity |].
  rewrite lookup_insert_ne by congruence.
  reflexivity.
Qed.

(** C3, as the specification words it: the clamp is taken before the
    severity multiplier.  With [vix = 10] and severity ["mild"] the mapper
    returns 0.003 where that formula gives 0.00252. *)
Lemma deposit_runoff_clamp_first_fails :
  let macro := {| vix := Some 10; credit_spreads_baa := None;
                  credit_spreads_hy := None; us10y_yield := None |} in
  ~ deposit_runoff_30d_pct (scenario_to_behavior_params macro "mild")
    == clamp (base_runoff_pct macro) 0.3 8.0 * severity_multiplier "mild" / 100.
Proof. vm_compute. discriminate. Qed.

(** C3, amended: [deposit_runoff_30d_pct] is the severity-scaled base
    runoff, clamped to [0.3, 8.0] after the multiplication, as a fraction. *)
Theorem deposit_runoff_clamp_after_severity macro severity :
  deposit_runoff_30d_pct (scenario_to_behavior_params macro severity)
  == clamp (base_runoff_pct macro * severity_multiplier severity) 0.3 8.0 / 100.
Proof.
  unfold scenario_to_behavior_params, base_runoff_pct; cbn [deposit_runoff_30d_pct].
  rewrite severity_lookup.
  set (x := _ * severity_multiplier severity).
  apply Qmult_comp; [| reflexivity].
  py_minmax; lra.
Qed.

(** C7: for one macro input, each behaviour parameter under ["severe"] is
    at least its value under ["base"]. *)
Theorem severe_dominates_base macro :
  let s := scenario_to_behavior_params macro "severe" in
  let b := scenario_to_behavior_params macro "base" in
  deposit_runoff_30d_pct b <= deposit_runoff_30d_pct s /\
  notroll_prob_30d b <= notroll_prob_30d s /\
  notroll_prob_90d b <= notroll_prob_90d s /\
  margin_factor b <= margin_factor s.
Proof.
  cbv zeta. unfold scenario_to_behavior_params.
  cbn [deposit_runoff_30d_pct notroll_prob_30d notroll_prob_90d margin_factor].
  rewrite !severity_lookup.
  change (severity_multiplier "severe") with 1.6.
  change (severity_multiplier "base") with 1.0.
  set (v := default 18 (vix macro)).
  set (hy := default 400 (credit_spreads_hy macro)).
  set (baa := default 180 (credit_spreads_baa macro)).
  set (t := default 4.2 (us10y_yield macro)).
  assert (Hdiv : forall x y, x <= y -> x / 100.0 <= y / 100.0).
  { intros x y Hxy. unfold Qdiv. apply Qmult_le_compat_r; [exact Hxy |].
    vm_compute. discriminate. }
  assert (H30 : Py.max 5 (Py.min 60 ((5 + 0.6 * (v - 18) + 0.05 * (hy - 400)) * 1.0))
                <= Py.max 5 (Py.min 60 ((5 + 0.6 * (v - 18) + 0.05 * (hy - 400)) * 1.6))).
  { py_minmax; lra. }
  repeat split.
  - apply Hdiv. py_minmax; lra.
  - apply Hdiv, H30.
  - apply Hdiv.
    apply Hdiv in H30. revert H30.
    set (a := Py.max 5 _ / 100.0). set (c := Py.max 5 _ / 100.0).
    intros. py_minmax; lra.
  - py_minmax; lra.
Qed.

(** ** HQLA eligibility *)

(** The returned stock is never negative. *)
Lemma compute_hqla_eligible_nonneg portfolio :
  0 <= compute_hqla_eligible portfolio.
Proof.
  unfold compute_hqla_eligible.
  destruct (hqla_levels portfolio) as [[[l1 l2a] l2b]|].
  - apply Qle_trans with 0.0; [lra | apply max_ge_l].
  - lra.
Qed.

(** C1 at a failing input: a reserve of 100 and one Level 2B bond of
    notional 1000.  The haircut leaves 500 of Level 2B; it is capped at 15%
    of the uncapped total 600, and Level 2 is then scaled to 40% of the total
    190.  The function returns about 176, of which about 76 is Level 2B:
    more than 15%, and more than 40%, of the returned total. *)
Theorem hqla_caps_exceeded_on_returned_total :
  let bond := {| inst_id := "B1"; inst_type := Some "bond"%string;
                 hql_level := Some "Level 2B"%string; notional := Some 1000;
                 currency := Some "USD"%string;
                 stable_funding_factor := None |} in
  let portfolio := {| reserve := Some 100; liquidity_profile := [bond] |} in
  exists l1 l2a l2b,
    hqla_levels portfolio = Some (l1, l2a, l2b) /\
    compute_hqla_eligible portfolio == l1 + l2a + l2b /\
    175 < compute_hqla_eligible portfolio /\
    0.15 * compute_hqla_eligible portfolio + 1e-6 < l2b /\
    0.40 * compute_hqla_eligible portfolio + 1e-6 < l2a + l2b.
Proof.
  cbv zeta. eexists _, _, _. split; [vm_compute; reflexivity |].
  repeat split; vm_compute; reflexivity.
Qed.

(** ** KPI calculator: the worst 30-day window *)

Section Worst30.

Lemma fold_left_Qplus (l : list Q) (a : Q) :
  fold_left Qplus l a == a + foldr Qplus 0 l.
Proof.
  revert a. induction l as [|x l IH]; intros a; simpl.
  - lra.
  - rewrite IH. lra.
Qed.

Lemma sum_foldr (l : list Q) : Py.sum l == foldr Qplus 0 l.
Proof. unfold Py.sum. rewrite fold_left_Qplus. lra. Qed.

Lemma take_drop_seqZ (i : nat) (h : Z) :
  (Z.of_nat i + 30 <= h)%Z ->
  take 30 (drop i (seqZ 1 h)) = seqZ (1 + Z.of_nat i) 30.
Proof.
  intros Hi.
  replace h with (Z.of_nat i + (30 + (h - Z.of_nat i - 30)))%Z by lia.
  rewrite seqZ_app by lia.
  rewrite drop_app_length' by (rewrite length_seqZ; lia).
  rewrite seqZ_app by lia.
  rewrite take_app_length' by (rewrite length_seqZ; lia).
  reflexivity.
Qed.

Lemma kpi_days_length as_of h : length (kpi_days as_of h) = Z.to_nat h.
Proof. unfold kpi_days. by rewrite length_fmap, length_seqZ. Qed.

(** A 30-day slice of an aligned array is the window sum of the series. *)
Lemma slice_window_sum leg detail as_of h (i : nat) :
  (Z.of_nat i + 30 <= h)%Z ->
  Py.sum (Py.slice (leg detail <$> kpi_days as_of h) i (i + 30))
  == window_sum leg detail as_of (Z.of_nat i + 1).
Proof.
  intros Hi. unfold Py.slice, kpi_days, window_sum.
  replace (i + 30 - i)%nat with 30%nat by lia.
  rewrite <- list_fmap_compose, <- fmap_drop, <- fmap_take.
  rewrite (take_drop_seqZ i h Hi), sum_foldr, foldr_fmap.
  replace (Z.of_nat i + 1)%Z with (1 + Z.of_nat i)%Z by lia.
  reflexivity.
Qed.

Lemma loop_net_window detail as_of h (i : nat) :
  (Z.of_nat i + 30 <= h)%Z ->
  loop_net (get_in detail <$> kpi_days as_of h)
           (get_out detail <$> kpi_days as_of h) i
  == window_net detail as_of (Z.of_nat i + 1).
Proof.
  intros Hi. unfold loop_net, window_net. cbv zeta.
  pose proof (slice_window_sum get_in detail as_of h i Hi) as Ein.
  pose proof (slice_window_sum get_out detail as_of h i Hi) as Eout.
  revert Ein Eout.
  generalize (Py.sum (Py.slice (get_in detail <$> kpi_days as_of h) i (i + 30))).
  generalize (Py.sum (Py.slice (get_out detail <$> kpi_days as_of h) i (i + 30))).
  generalize (window_sum get_in detail as_of (Z.of_nat i + 1)).
  generalize (window_sum get_out detail as_of (Z.of_nat i + 1)).
  intros o i' wo wi Ein Eout.
  destruct (Q.min_spec i' (0.75 * o)) as [[? E2]|[? E2]];
  destruct (Q.max_spec 0 (o - Qmin i' (0.75 * o))) as [[? E1]|[? E1]];
  py_minmax; lra.
Qed.

(** A running maximum bounds its start value and every element folded in,
    and is one of them. *)
Lemma fold_max_spec (f : nat -> Q) (l : list nat) (w0 : Q) :
  let r := fold_left (fun w i => Py.max w (f i)) l w0 in
  w0 <= r /\ (forall i, In i l -> f i <= r) /\
  (r = w0 \/ exists i, In i l /\ r = f i).
Proof.
  revert w0. induction l as [|x l IH]; intros w0; simpl.
  - repeat split; [lra | tauto | by left].
  - destruct (IH (Py.max w0 (f x))) as (H1 & H2 & H3). repeat split.
    + apply Qle_trans with (Py.max w0 (f x)); [apply max_ge_l | exact H1].
    + intros i [<-|Hi]; [| by apply H2].
      apply Qle_trans with (Py.max w0 (f x)); [apply max_ge_r | exact H1].
    + destruct H3 as [H3|(i & Hi & H3)]; [| right; eauto].
      rewrite H3. destruct (max_spec w0 (f x)) as [[_ ->]|[_ ->]]; eauto.
Qed.

Lemma worst_30_loop_fold inflow outflow n :
  worst_30_loop inflow outflow n
  = fold_left (fun w i => Py.max w (loop_net inflow outflow i))
              (seq 0 (n - 29)) 1.0.
Proof. reflexivity. Qed.

End Worst30.

(** C2: [worst_30d_outflow] is the largest window net over the windows that
    start on days 1 .. horizon-29, floored at 1.0: it is at least 1.0, at
    least every window's net, and equal to 1.0 or to the net of one of the
    windows. *)
Theorem worst_30d_outflow_is_floored_window_max
    (detail : gmap Z Bucket) (as_of : Z) (hqla_base : Q) (horizon_days : Z) :
  let w := worst_30d_outflow
             (compute_kpis_from_daily_detail detail as_of hqla_base
                                             horizon_days) in
  1.0 <= w /\
  (forall s, (1 <= s <= horizon_days - 29)%Z ->
             window_net detail as_of s <= w) /\
  (w == 1.0 \/
   exists s, (1 <= s <= horizon_days - 29)%Z /\ w == window_net detail as_of s).
Proof.
  cbv zeta. unfold compute_kpis_from_daily_detail.
  destruct (survival_loop _ _ _ _) as [[_ peak] survival].
  cbn [worst_30d_outflow].
  rewrite worst_30_loop_fold, kpi_days_length.
  set (inflow := get_in detail <$> kpi_days as_of horizon_days).
  set (outflow := get_out detail <$> kpi_days as_of horizon_days).
  destruct (fold_max_spec (loop_net inflow outflow)
              (seq 0 (Z.to_nat horizon_days - 29)) 1.0) as (H1 & H2 & H3).
  split; [exact H1 | split].
  - intros s Hs.
    eapply Qle_trans; [| apply (H2 (Z.to_nat (s - 1))); apply in_seq; lia].
    subst inflow outflow.
    pose proof (loop_net_window detail as_of horizon_days (Z.to_nat (s - 1)))
      as E.
    replace (Z.of_nat (Z.to_nat (s - 1)) + 1)%Z with s in E by lia.
    rewrite E by lia. lra.
  - destruct H3 as [->|(i & Hi & ->)]; [left; lra | right].
    apply in_seq in Hi. exists (Z.of_nat i + 1)%Z. split; [lia |].
    subst inflow outflow. apply loop_net_window. lia.
Qed.

(** An outflow of 10 on day 1 over a horizon of 31 days: both windows are
    bounded by the result, which is the net of the first one. *)
Lemma worst_30d_outflow_is_floored_window_max_witness :
  let detail : gmap Z Bucket := {[ 1%Z := {| b_in := 0; b_out := 10 |} ]} in
  let w := worst_30d_outflow (compute_kpis_from_daily_detail detail 0 5 31) in
  1.0 <= w /\ window_net detail 0 1 <= w /\ window_net detail 0 2 <= w /\
  w == window_net detail 0 1.
Proof.
  cbv zeta.
  destruct (worst_30d_outflow_is_floored_window_max
              {[ 1%Z := {| b_in := 0; b_out := 10 |} ]} 0 5 31)
    as (Hfloor & Hbound & _).
  split; [exact Hfloor |].
  split; [apply Hbound; lia |].
  split; [apply Hbound; lia |].
  vm_compute. reflexivity.
Defined.

(** ** KPI calculator: survival days *)

Section Survival.

Variable detail : gmap Z Bucket.
Variable as_of : Z.
Variable hqla_base : Q.
Variable horizon_days : Z.

Local Abbreviation inflow := (get_in detail <$> kpi_days as_of horizon_days).
Local Abbreviation outflow := (get_out detail <$> kpi_days as_of horizon_days).
Local Abbreviation C := (cumulative_net detail as_of).

Lemma nth_aligned (leg : gmap Z Bucket -> Z -> Q) (idx : nat) :
  (idx < Z.to_nat horizon_days)%nat ->
  nth idx (leg detail <$> kpi_days as_of horizon_days) 0
  = leg detail (day_after as_of (Z.of_nat (S idx))).
Proof.
  intros Hidx. apply nth_lookup_Some. unfold kpi_days.
  assert (Hlt : (Z.of_nat idx < horizon_days)%Z) by lia.
  rewrite !list_lookup_fmap, (lookup_seqZ_lt _ _ _ Hlt). cbn.
  unfold day_after.
  replace (1 + Z.of_nat idx)%Z with (Z.of_nat (S idx)) by lia. reflexivity.
Qed.

Local Abbreviation found := (scan_found detail as_of hqla_base).

Lemma survival_loop_invariant (n : nat) :
  (n <= Z.to_nat horizon_days)%nat ->
  let '(cum, _, survival) := survival_loop inflow outflow hqla_base n in
  cum == C n /\ found n survival.
Proof.
  induction n as [|n IH]; intros Hn.
  - cbn. split; [reflexivity |]. intros j Hj. lia.
  - unfold survival_loop in *. rewrite seq_S, fold_left_app.
    cbn [fold_left Nat.add].
    destruct (fold_left _ (seq 0 n) _) as [[cum peak] survival].
    destruct IH as [Hcum Hfound]; [lia |].
    unfold survival_step. rewrite Nat.add_1_r, !nth_aligned by lia.
    set (c' := cum + _).
    assert (Hc : c' == C (S n)).
    { subst c'. cbn [cumulative_net]. rewrite Hcum. reflexivity. }
    split; [exact Hc |]. clearbody c'.
    destruct survival as [k|]; unfold scan_found in *.
    + destruct Hfound as (Hk & Hex & Hbefore).
      split; [lia |]. split; [exact Hex | exact Hbefore].
    + destruct (Py.Qltb hqla_base c') eqn:E.
      * apply Qltb_lt in E.
        split; [lia |]. split; [lra |]. intros j Hj. apply Hfound. lia.
      * apply Qltb_ge in E. intros j Hj.
        destruct (decide (j = S n)) as [->|Hne]; [lra | apply Hfound; lia].
Qed.

Lemma survival_days_scan :
  exists cum peak survival,
    survival_loop inflow outflow hqla_base (Z.to_nat horizon_days)
    = (cum, peak, survival) /\
    found (Z.to_nat horizon_days) survival /\
    survival_days (compute_kpis_from_daily_detail detail as_of hqla_base
                                                  horizon_days)
    = match survival with
      | Some s => Z.of_nat s
      | None => horizon_days
      end.
Proof.
  pose proof (survival_loop_invariant (Z.to_nat horizon_days)) as Hinv.
  unfold compute_kpis_from_daily_detail. rewrite kpi_days_length.
  destruct (survival_loop inflow outflow hqla_base (Z.to_nat horizon_days))
    as [[cum peak] survival].
  exists cum, peak, survival. destruct Hinv as [_ Hfound]; [lia |].
  repeat split; assumption.
Qed.

End Survival.

(** C6, as the specification words it: [survival_days] equals the horizon
    exactly when the cumulative net outflow never exceeds the stock.  With a
    horizon of one day, an outflow of 10 on day 1 and a stock of 5 the scan
    returns 1, the horizon, although day 1 exceeds the stock. *)
Lemma survival_days_horizon_although_exceeded :
  let detail : gmap Z Bucket := {[ 1%Z := {| b_in := 0; b_out := 10 |} ]} in
  ~ (survival_days (compute_kpis_from_daily_detail detail 0 5 1) = 1%Z
     <-> forall k, (1 <= k <= 1)%nat -> cumulative_net detail 0 k <= 5).
Proof.
  cbv zeta. intros [Hnever _].
  specialize (Hnever eq_refl 1%nat (conj (le_n 1) (le_n 1))).
  vm_compute in Hnever. apply Hnever. reflexivity.
Qed.

(** C6, amended: [survival_days] is the first 1-based day within the horizon
    on which the cumulative net outflow strictly exceeds [hqla_base]; it is
    [horizon_days] when no day of the horizon does (and also when the first
    such day is the last one); for a horizon of at least one day it lies in
    [1, horizon_days]. *)
Theorem survival_days_first_exceedance
    (detail : gmap Z Bucket) (as_of : Z) (hqla_base : Q) (horizon_days : Z) :
  let sd := survival_days
              (compute_kpis_from_daily_detail detail as_of hqla_base
                                              horizon_days) in
  let cum := cumulative_net detail as_of in
  (forall k : nat,
      (1 <= k)%nat -> (Z.of_nat k <= horizon_days)%Z ->
      hqla_base < cum k ->
      (forall j, (1 <= j < k)%nat -> cum j <= hqla_base) ->
      sd = Z.of_nat k) /\
  ((forall k : nat,
       (1 <= k)%nat -> (Z.of_nat k <= horizon_days)%Z ->
       cum k <= hqla_base) ->
   sd = horizon_days) /\
  ((1 <= horizon_days)%Z -> (1 <= sd <= horizon_days)%Z).
Proof.
  cbv zeta.
  destruct (survival_days_scan detail as_of hqla_base horizon_days)
    as (c & p & survival & _ & Hfound & ->).
  unfold scan_found in Hfound. destruct survival as [s|].
  - destruct Hfound as (Hs & Hex & Hbefore). repeat apply conj.
    + intros k Hk1 Hkh Hk Hkb. f_equal.
      destruct (Nat.lt_trichotomy s k) as [Hlt|[Heq|Hgt]]; [| exact Heq |].
      * specialize (Hkb s ltac:(lia)). lra.
      * specialize (Hbefore k ltac:(lia)). lra.
    + intros Hnever. specialize (Hnever s ltac:(lia) ltac:(lia)). lra.
    + intros Hh. lia.
  - repeat apply conj.
    + intros k Hk1 Hkh Hk _. specialize (Hfound k ltac:(lia)). lra.
    + reflexivity.
    + intros Hh. lia.
Qed.

(** The scan at work: outflows of 3 and 4 on days 1 and 2 against a stock of
    5 give a cumulative 3, then 7; the stock is first exceeded on day 2. *)
Lemma survival_days_first_exceedance_witness :
  let detail : gmap Z Bucket :=
    {[ 1%Z := {| b_in := 0; b_out := 3 |};
       2%Z := {| b_in := 0; b_out := 4 |} ]} in
  survival_days (compute_kpis_from_daily_detail detail 0 5 3) = 2%Z /\
  (1 <= survival_days (compute_kpis_from_daily_detail detail 0 5 3) <= 3)%Z.
Proof.
  cbv zeta.
  destruct (survival_days_first_exceedance
              {[ 1%Z := {| b_in := 0; b_out := 3 |};
                 2%Z := {| b_in := 0; b_out := 4 |} ]} 0 5 3)
    as (Hfirst & _ & Hrange).
  split.
  - apply (Hfirst 2%nat).
    + lia.
    + lia.
    + vm_compute. reflexivity.
    + intros j Hj. assert (j = 1%nat) as -> by lia. vm_compute. discriminate.
  - apply Hrange. lia.
Defined.

(** ** Series combiner *)

Section Combiner.

(** The inner loop adds each bucket of [s] to the bucket of [out] at the
    same date, and leaves the other dates of [out] alone. *)
Lemma combine_one_lookup (out s : gmap Z Bucket) (d : Z) :
  combine_one out s !! d
  = match s !! d with
    | Some io =>
        Some {| b_in := b_in (bucket_at out d) + b_in io;
                b_out := b_out (bucket_at out d) + b_out io |}
    | None => out !! d
    end.
Proof.
  unfold combine_one. revert d.
  apply (map_fold_weak_ind
           (fun r (m : gmap Z Bucket) =>
              forall d, r !! d
                        = match m !! d with
                          | Some io =>
                              Some {| b_in := b_in (bucket_at out d) + b_in io;
                                      b_out := b_out (bucket_at out d) + b_out io |}
                          | None => out !! d
                          end)).
  - intros d. by rewrite lookup_empty.
  - intros i x m r Hi IH d. destruct (decide (i = d)) as [->|Hne].
    + rewrite !lookup_insert_eq. unfold bucket_at.
      by rewrite (IH d), Hi.
    + rewrite !lookup_insert_ne by done. apply IH.
Qed.

Lemma combine_two_lookup (s z : gmap Z Bucket) (d : Z) :
  combine_daily_detail [s; z] !! d
  = match z !! d with
    | Some zb =>
        let b := match s !! d with
                 | Some io => {| b_in := 0.0 + b_in io; b_out := 0.0 + b_out io |}
                 | None => zero_bucket
                 end in
        Some {| b_in := b_in b + b_in zb; b_out := b_out b + b_out zb |}
    | None =>
        match s !! d with
        | Some io => Some {| b_in := 0.0 + b_in io; b_out := 0.0 + b_out io |}
        | None => None
        end
    end.
Proof.
  unfold combine_daily_detail. cbn [fold_left].
  rewrite combine_one_lookup. unfold bucket_at.
  rewrite combine_one_lookup, lookup_empty. unfold bucket_at.
  rewrite lookup_empty. cbn [default].
  destruct (z !! d), (s !! d); reflexivity.
Qed.

End Combiner.

(** C9, as the specification words it: combining with an all-zero series
    returns the series unchanged.  Combining the empty series with an
    all-zero series that has an entry on day 0 returns a series with that
    date in it, which is not the empty series. *)
Lemma combine_all_zero_adds_dates :
  let s : gmap Z Bucket := ∅ in
  let z : gmap Z Bucket := {[ 0%Z := zero_bucket ]} in
  all_zero z /\ ~ series_eq (combine_daily_detail [s; z]) s.
Proof.
  cbv zeta. split.
  - intros d b [_ <-]%lookup_singleton_Some. split; reflexivity.
  - intros H. specialize (H 0%Z). vm_compute in H. exact H.
Qed.

(** C9, amended: combining a series [s] with an all-zero series [z] returns
    a series that reads as [s] at every date (with the zero default for a
    missing date), whose dates are those of [s] and of [z]; it is equal to
    [s] when every date of [z] is a date of [s]. *)
Theorem combine_all_zero_identity (s z : gmap Z Bucket) :
  all_zero z ->
  let r := combine_daily_detail [s; z] in
  (forall d, get_in r d == get_in s d /\ get_out r d == get_out s d) /\
  dom r = dom s ∪ dom z /\
  (dom z ⊆ dom s -> series_eq r s).
Proof.
  intros Hz. cbv zeta. repeat apply conj.
  - intros d. unfold get_in, get_out. rewrite combine_two_lookup.
    destruct (z !! d) as [zb|] eqn:Ez; destruct (s !! d) as [io|] eqn:Es;
      cbn; try (destruct (Hz d zb Ez) as [Hi Ho]; rewrite Hi, Ho);
      split; lra.
  - apply set_eq. intros d.
    rewrite elem_of_union, !elem_of_dom, combine_two_lookup.
    destruct (z !! d), (s !! d); cbn;
      rewrite <- ?not_eq_None_Some; intuition congruence.
  - intros Hsub d. rewrite combine_two_lookup.
    destruct (z !! d) as [zb|] eqn:Ez; destruct (s !! d) as [io|] eqn:Es; cbn.
    + destruct (Hz d zb Ez) as [Hi Ho]. rewrite Hi, Ho. split; lra.
    + assert (d ∈ dom s) as Hd by (apply Hsub, elem_of_dom; eauto).
      apply elem_of_dom in Hd as [? ?]. congruence.
    + split; lra.
    + exact I.
Qed.

(** A series with one date combined with an all-zero series on that date. *)
Lemma combine_all_zero_identity_witness :
  let s : gmap Z Bucket := {[ 1%Z := {| b_in := 2; b_out := 3 |} ]} in
  let z : gmap Z Bucket := {[ 1%Z := zero_bucket ]} in
  series_eq (combine_daily_detail [s; z]) s.
Proof.
  cbv zeta.
  refine (proj2 (proj2 (combine_all_zero_identity
                          {[ 1%Z := {| b_in := 2; b_out := 3 |} ]}
                          {[ 1%Z := zero_bucket ]} _)) _).
  - intros d b [_ <-]%lookup_singleton_Some. split; reflexivity.
  - rewrite !dom_singleton_L. reflexivity.
Defined.

(** ** Instrument impact applier: dropped impacts *)

Section Skipped.

Lemma apply_impact_malformed inst_map futures new_cfs imp :
  malformed inst_map imp ->
  apply_impact inst_map futures new_cfs imp = new_cfs.
Proof.
  unfold malformed, apply_impact. intros H.
  destruct (imp_id imp) as [id|]; cbn in *; [| reflexivity].
  destruct (inst_map !! id) as [inst|]; [| reflexivity].
  destruct (imp_date imp) as [ds|]; [| reflexivity].
  destruct H as [H|[H|H]]; [discriminate.. |].
  apply Qle_bool_iff in H. by rewrite H.
Qed.

(** Removing a dropped impact from the list does not change the result. *)
Lemma apply_impacts_drop cashflows portfolio before imp after as_of :
  malformed (build_inst_map (liquidity_profile portfolio)) imp ->
  apply_instrument_impacts_to_cashflows cashflows portfolio
    (before ++ imp :: after) as_of
  = apply_instrument_impacts_to_cashflows cashflows portfolio
      (before ++ after) as_of.
Proof.
  intros H. unfold apply_instrument_impacts_to_cashflows.
  rewrite !fold_left_app. cbn [fold_left].
  by rewrite apply_impact_malformed.
Qed.

End Skipped.

(** C8: an impact whose instrument lookup finds no instrument, whose date is
    absent, or whose amount is not positive contributes nothing: the result
    is the one obtained with that impact removed from the list. *)
Theorem malformed_impact_is_skipped
    (cashflows : list CashflowEvent) (portfolio : Portfolio)
    (before after : list InstrumentImpact) (imp : InstrumentImpact)
    (as_of : Z) :
  imp_id imp ≫= (build_inst_map (liquidity_profile portfolio) !!.) = None \/
  imp_date imp = None \/
  Py.float_or0 (imp_amount imp) <= 0 ->
  apply_instrument_impacts_to_cashflows cashflows portfolio
    (before ++ imp :: after) as_of
  = apply_instrument_impacts_to_cashflows cashflows portfolio
      (before ++ after) as_of.
Proof. apply apply_impacts_drop. Qed.

(** C10: the instrument reference is read from the ["id"] field only; an
    impact without it contributes nothing, whatever its ["instrument_id"]
    field holds. *)
Theorem impact_without_id_is_skipped
    (cashflows : list CashflowEvent) (portfolio : Portfolio)
    (before after : list InstrumentImpact) (imp : InstrumentImpact)
    (as_of : Z) :
  imp_id imp = None ->
  apply_instrument_impacts_to_cashflows cashflows portfolio
    (before ++ imp :: after) as_of
  = apply_instrument_impacts_to_cashflows cashflows portfolio
      (before ++ after) as_of.
Proof.
  intros Hid. apply apply_impacts_drop. left. by rewrite Hid.
Qed.

(** Three dropped impacts after a well-formed one: an unknown instrument,
    a missing date, a zero amount. *)
Lemma malformed_impact_is_skipped_witness :
  let good := sample_impact "not_rollover" 100 None in
  let unknown :=
    {| imp_id := Some "ZZ9"%string; imp_instrument_id := None;
       imp_action := Some "prepay"%string; imp_date := Some 86400%Z;
       imp_amount := Some 10; imp_new_maturity := None |} in
  let undated :=
    {| imp_id := Some "CD1"%string; imp_instrument_id := None;
       imp_action := Some "prepay"%string; imp_date := None;
       imp_amount := Some 10; imp_new_maturity := None |} in
  let zero := sample_impact "prepay" 0 None in
  apply_instrument_impacts_to_cashflows [sample_leg] sample_portfolio
    [good; unknown] 0
  = apply_instrument_impacts_to_cashflows [sample_leg] sample_portfolio
      [good] 0 /\
  apply_instrument_impacts_to_cashflows [sample_leg] sample_portfolio
    [good; undated] 0
  = apply_instrument_impacts_to_cashflows [sample_leg] sample_portfolio
      [good] 0 /\
  apply_instrument_impacts_to_cashflows [sample_leg] sample_portfolio
    [good; zero] 0
  = apply_instrument_impacts_to_cashflows [sample_leg] sample_portfolio
      [good] 0.
Proof.
  cbv zeta. repeat apply conj.
  - apply (malformed_impact_is_skipped [sample_leg] sample_portfolio
             [sample_impact "not_rollover" 100 None] []).
    left. vm_compute. reflexivity.
  - apply (malformed_impact_is_skipped [sample_leg] sample_portfolio
             [sample_impact "not_rollover" 100 None] []).
    right. left. reflexivity.
  - apply (malformed_impact_is_skipped [sample_leg] sample_portfolio
             [sample_impact "not_rollover" 100 None] []).
    right. right. vm_compute. discriminate.
Defined.

(** An impact that names an existing instrument in ["instrument_id"] but has
    no ["id"]. *)
Lemma impact_without_id_is_skipped_witness :
  let imp :=
    {| imp_id := None; imp_instrument_id := Some "CD1"%string;
       imp_action := Some "not_rollover"%string;
       imp_date := Some (5 * 86400)%Z;
       imp_amount := Some 100; imp_new_maturity := None |} in
  apply_instrument_impacts_to_cashflows [sample_leg] sample_portfolio [imp] 0
  = [sample_leg].
Proof.
  cbv zeta.
  apply (impact_without_id_is_skipped [sample_leg] sample_portfolio [] []).
  reflexivity.
Defined.

(** ** Instrument impact applier: the original leg *)

Section Futures.

Lemma futures_step_lookup asof futures cf id :
  futures_step asof futures cf !! id
  = if decide ((asof < cf_date cf)%Z /\ cf_instrument_id cf = id)
    then Some (default [] (futures !! id) ++ [cf])
    else futures !! id.
Proof.
  unfold futures_step.
  destruct (Z.ltb_spec asof (cf_date cf)) as [Hlt|Hge].
  - destruct (decide (cf_instrument_id cf = id)) as [<-|Hne].
    + rewrite lookup_insert_eq, decide_True by done. reflexivity.
    + rewrite lookup_insert_ne, decide_False by tauto. reflexivity.
  - rewrite decide_False by lia. reflexivity.
Qed.

(** The index built by the first loop holds, for each instrument, its
    future legs in schedule order. *)
Lemma futures_fold_lookup cashflows asof futures id :
  fold_left (futures_step asof) cashflows futures !! id
  = match future_legs cashflows asof id with
    | [] => futures !! id
    | legs => Some (default [] (futures !! id) ++ legs)
    end.
Proof.
  unfold future_legs.
  revert futures. induction cashflows as [|cf cfs IH]; intros futures.
  - reflexivity.
  - cbn [fold_left]. rewrite IH, futures_step_lookup, filter_cons.
    destruct (decide _) as [Hcf|Hcf].
    + destruct (filter _ cfs) as [|x l].
      * reflexivity.
      * change (default [] (Some ?l)) with l. by rewrite <- app_assoc.
    + reflexivity.
Qed.

Lemma build_futures_lookup cashflows asof id :
  build_futures cashflows asof !! id
  = match future_legs cashflows asof id with
    | [] => None
    | legs => Some (sort_by_date legs)
    end.
Proof.
  unfold build_futures.
  rewrite lookup_fmap, futures_fold_lookup, lookup_empty.
  by destruct (future_legs cashflows asof id).
Qed.

(** An instrument with a single future leg has that leg as its original
    leg. *)
Lemma first_future_cf_sole cashflows asof id leg :
  future_legs cashflows asof id = [leg] ->
  first_future_cf (build_futures cashflows asof) id = Some leg.
Proof.
  intros H. unfold first_future_cf. by rewrite build_futures_lookup, H.
Qed.

End Futures.

(** ** Instrument impact applier: dispatch on a liability *)

Section Dispatch.

Lemma Qle_bool_false x y : y < x -> Qle_bool x y = false.
Proof.
  intros H. destruct (Qle_bool x y) eqn:E; [| reflexivity].
  apply Qle_bool_iff in E. lra.
Qed.

Lemma Qabs_of_pos x : 0 < x -> Qabs x = x.
Proof.
  destruct x as [n d]. unfold Qlt. cbn. intros H.
  f_equal. lia.
Qed.

Lemma truthy_of_pos x : 0 < x -> Py.truthy x = true.
Proof.
  intros H. unfold Py.truthy. destruct (Qeq_bool x 0) eqn:E; [| reflexivity].
  apply Qeq_bool_iff in E. lra.
Qed.

Variable inst_map : gmap string Instrument.
Variable futures : gmap string (list CashflowEvent).
Variable imp : InstrumentImpact.
Variable id : string.
Variable inst : Instrument.
Variable date_s : Z.
Variable amt : Q.

Hypothesis Hid : imp_id imp = Some id.
Hypothesis Hinst : inst_map !! id = Some inst.
Hypothesis Hliab : lower (default "other"%string (inst_type inst)) ∈ LIAB_TYPES.
Hypothesis Hdate : imp_date imp = Some date_s.
Hypothesis Hamt : imp_amount imp = Some amt.
Hypothesis Hpos : 0 < amt.

(** Not rolling a liability: the outflow on the impact date, and the offset
    on the date of the original leg. *)
Lemma not_rollover_events new_cfs old :
  imp_action imp = Some "not_rollover"%string ->
  first_future_cf futures id = Some old ->
  apply_impact inst_map futures new_cfs imp
  = new_cfs ++ [impact_event id inst (- amt) date_s;
                impact_event id inst amt (cf_date old)].
Proof.
  intros Hact Hold. unfold apply_impact.
  rewrite Hid. cbn [mbind option_bind]. rewrite Hinst, Hdate, Hamt, Hact, Hold.
  change (Py.float_or0 (Some amt)) with amt.
  change (cf_date <$> Some old) with (Some (cf_date old)).
  rewrite (Qle_bool_false _ _ Hpos).
  change (action_is (Some "not_rollover"%string) "margin_call") with false.
  change (action_is (Some "not_rollover"%string) "exercise_option") with false.
  cbn [orb]. rewrite (bool_decide_eq_true_2 _ Hliab).
  replace (action_in _ _) with true by (vm_compute; reflexivity).
  unfold add_cf, impact_event.
  by rewrite <- app_assoc.
Qed.


End Dispatch.




(** ** Daily roll-up of an amended ledger *)

Section RollUp.

Lemma bucket_at_add_in daily key amt d :
  bucket_at (add_in daily key amt) d
  = if decide (key = d)
    then {| b_in := b_in (bucket_at daily d) + amt;
            b_out := b_out (bucket_at daily d) |}
    else bucket_at daily d.
Proof.
  unfold add_in, bucket_at. destruct (decide (key = d)) as [->|Hne].
  - by rewrite lookup_insert_eq.
  - by rewrite lookup_insert_ne.
Qed.

Lemma bucket_at_add_out daily key amt d :
  bucket_at (add_out daily key amt) d
  = if decide (key = d)
    then {| b_in := b_in (bucket_at daily d);
            b_out := b_out (bucket_at daily d) + amt |}
    else bucket_at daily d.
Proof.
  unfold add_out, bucket_at. destruct (decide (key = d)) as [->|Hne].
  - by rewrite lookup_insert_eq.
  - by rewrite lookup_insert_ne.
Qed.

(** An event leaves the buckets of the other dates alone. *)
Lemma roll_step_other asof end_ daily cf d :
  date_of (cf_date cf) <> d ->
  bucket_at (roll_step asof end_ daily cf) d = bucket_at daily d.
Proof.
  intros Hne. unfold roll_step.
  destruct (_ && _); [| reflexivity].
  destruct (Qle_bool 0 (cf_amount cf)).
  - by rewrite bucket_at_add_in, decide_False.
  - by rewrite bucket_at_add_out, decide_False.
Qed.

(** An inflow inside the window is added to the inflow of its date. *)
Lemma roll_step_inflow asof end_ daily cf :
  (asof < cf_date cf <= end_)%Z -> 0 <= cf_amount cf ->
  bucket_at (roll_step asof end_ daily cf) (date_of (cf_date cf))
  = {| b_in := b_in (bucket_at daily (date_of (cf_date cf))) + cf_amount cf;
       b_out := b_out (bucket_at daily (date_of (cf_date cf))) |}.
Proof.
  intros [Hlo Hhi] Hamt. unfold roll_step.
  apply Z.ltb_lt in Hlo. apply Z.leb_le in Hhi. rewrite Hlo, Hhi. cbn [andb].
  apply Qle_bool_iff in Hamt. rewrite Hamt.
  by rewrite bucket_at_add_in, decide_True.
Qed.

Lemma roll_app l1 l2 as_of horizon_days :
  roll_daily_contractual_flows_detail (l1 ++ l2) as_of horizon_days
  = fold_left (roll_step as_of (as_of + timedelta_days horizon_days)) l2
              (roll_daily_contractual_flows_detail l1 as_of horizon_days).
Proof.
  unfold roll_daily_contractual_flows_detail. apply fold_left_app.
Qed.

End RollUp.

(** C5, as the specification words it: with X equal to Y the bucket of the
    maturity date D is, in net, as in the baseline.  For the sample leg on
    day 40 and a [not_rollover] of 100 on day 5 the net flow of day 40
    moves by 100, whether the leg is an outflow of 100 or an inflow of
    100. *)
Lemma not_rollover_moves_maturity_bucket :
  let imp := sample_impact "not_rollover" 100 None in
  let inflow_leg :=
    {| cf_instrument_id := "CD1"; cf_type := "certificate_of_deposit";
       cf_currency := "USD"; cf_date := 40 * 86400; cf_amount := 100 |} in
  let amended legs :=
    roll_daily_contractual_flows_detail
      (apply_instrument_impacts_to_cashflows legs sample_portfolio [imp] 0)
      0 180 in
  let baseline legs := roll_daily_contractual_flows_detail legs 0 180 in
  future_legs [sample_leg] 0 "CD1" = [sample_leg] /\
  future_legs [inflow_leg] 0 "CD1" = [inflow_leg] /\
  ~ bucket_net (amended [sample_leg]) 40 - bucket_net (baseline [sample_leg]) 40
    == 0 /\
  ~ bucket_net (amended [inflow_leg]) 40 - bucket_net (baseline [inflow_leg]) 40
    == 0.
Proof.
  cbv zeta. repeat apply conj; vm_compute; (reflexivity || discriminate).
Qed.

(** C5, amended: for a liability whose sole future leg is [leg], on date D,
    a [not_rollover] impact of amount X > 0 appends exactly the two events
    (-X, impact date) and (+X, D) after the unchanged originals; after the
    roll-up, when D lies within the horizon and the impact date falls on
    another day, the bucket of D has the baseline's outflow and the
    baseline's inflow plus X, so its net flow is X above the baseline: the
    offset cancels a scheduled outflow of X. *)
Theorem not_rollover_sole_leg_events
    (cashflows : list CashflowEvent) (portfolio : Portfolio)
    (imp : InstrumentImpact) (as_of horizon_days : Z)
    (id : string) (inst : Instrument) (leg : CashflowEvent)
    (date_s : Z) (X : Q) :
  imp_id imp = Some id ->
  build_inst_map (liquidity_profile portfolio) !! id = Some inst ->
  lower (default "other"%string (inst_type inst)) ∈ LIAB_TYPES ->
  imp_action imp = Some "not_rollover"%string ->
  imp_date imp = Some date_s ->
  imp_amount imp = Some X ->
  0 < X ->
  future_legs cashflows as_of id = [leg] ->
  let D := cf_date leg in
  let new_cfs :=
    apply_instrument_impacts_to_cashflows cashflows portfolio [imp] as_of in
  let baseline :=
    roll_daily_contractual_flows_detail cashflows as_of horizon_days in
  let amended :=
    roll_daily_contractual_flows_detail new_cfs as_of horizon_days in
  new_cfs = cashflows ++ [impact_event id inst (- X) date_s;
                          impact_event id inst X D] /\
  ((D <= as_of + timedelta_days horizon_days)%Z ->
   date_of date_s <> date_of D ->
   b_in (bucket_at amended (date_of D))
   == b_in (bucket_at baseline (date_of D)) + X /\
   b_out (bucket_at amended (date_of D))
   == b_out (bucket_at baseline (date_of D)) /\
   bucket_net amended (date_of D) == bucket_net baseline (date_of D) + X).
Proof.
  intros Hid Hinst Hliab Hact Hdate Hamt Hpos Hsole. cbv zeta.
  assert (Hnew :
    apply_instrument_impacts_to_cashflows cashflows portfolio [imp] as_of
    = cashflows ++ [impact_event id inst (- X) date_s;
                    impact_event id inst X (cf_date leg)]).
  { unfold apply_instrument_impacts_to_cashflows. cbn [fold_left].
    apply not_rollover_events; try assumption.
    by apply first_future_cf_sole. }
  split; [exact Hnew |]. intros Hend Hday.
  assert (Hfut : (as_of < cf_date leg)%Z).
  { assert (leg ∈ future_legs cashflows as_of id) as Hin
      by (rewrite Hsole; apply list_elem_of_here).
    unfold future_legs in Hin. apply list_elem_of_filter in Hin. tauto. }
  rewrite Hnew, roll_app. cbn [fold_left]. unfold bucket_net.
  set (base := roll_daily_contractual_flows_detail cashflows as_of horizon_days).
  set (end_ := (as_of + timedelta_days horizon_days)%Z).
  set (e1 := impact_event id inst (- X) date_s).
  set (e2 := impact_event id inst X (cf_date leg)).
  pose proof (roll_step_inflow as_of end_ (roll_step as_of end_ base e1) e2)
    as Hin.
  change (cf_date e2) with (cf_date leg) in Hin.
  change (cf_amount e2) with X in Hin.
  rewrite (Hin (conj Hfut Hend) (Qlt_le_weak _ _ Hpos)).
  rewrite (roll_step_other as_of end_ base e1) by exact Hday.
  cbn [b_in b_out]. repeat split; lra.
Qed.

(** The sample leg on day 40, not rolled on day 5 for its full amount. *)
Lemma not_rollover_sole_leg_events_witness :
  let new_cfs :=
    apply_instrument_impacts_to_cashflows [sample_leg] sample_portfolio
      [sample_impact "not_rollover" 100 None] 0 in
  new_cfs = [sample_leg;
             impact_event "CD1" sample_cd (- 100) (5 * 86400);
             impact_event "CD1" sample_cd 100 (40 * 86400)] /\
  bucket_net (roll_daily_contractual_flows_detail new_cfs 0 180) 40
  == bucket_net (roll_daily_contractual_flows_detail [sample_leg] 0 180) 40
     + 100.
Proof.
  cbv zeta.
  destruct (not_rollover_sole_leg_events [sample_leg] sample_portfolio
              (sample_impact "not_rollover" 100 None) 0 180
              "CD1" sample_cd sample_leg (5 * 86400) 100)
    as [Hnew Hroll].
  - reflexivity.
  - vm_compute. reflexivity.
  - apply (bool_decide_unpack _). vm_compute. exact I.
  - reflexivity.
  - reflexivity.
  - reflexivity.
  - reflexivity.
  - vm_compute. reflexivity.
  - split; [exact Hnew |].
    apply Hroll; vm_compute; discriminate.
Defined.

(* ===================================================================== *)
(** * Further properties of the engine *)
(* ===================================================================== *)

(** ** Behaviour parameter mapper: ranges and ordering *)

Section BehaviorRanges.

Lemma div100_le x y : x <= y -> x / 100.0 <= y / 100.0.
Proof.
  intros Hxy. unfold Qdiv. apply Qmult_le_compat_r; [exact Hxy |].
  vm_compute. discriminate.
Qed.

Lemma severity_multiplier_cases severity :
  severity_multiplier severity = 0.6 \/
  severity_multiplier severity = 1.0 \/
  severity_multiplier severity = 1.6.
Proof.
  unfold severity_multiplier.
  destruct (String.eqb severity "mild"); [by left |].
  destruct (String.eqb severity "base"); [by right; left |].
  destruct (String.eqb severity "severe"); [by right; right | by right; left].
Qed.

End BehaviorRanges.

(** Whatever the macro input and the severity label, the deposit runoff
    lies in [0.003, 0.08], the 30-day non-roll probability in [0.05, 0.60],
    the 90-day one in [0.075, 0.90], and the margin factor in [0.3, 4.8]. *)
Theorem behavior_params_ranges macro severity :
  let b := scenario_to_behavior_params macro severity in
  (0.003 <= deposit_runoff_30d_pct b <= 0.08) /\
  (0.05 <= notroll_prob_30d b <= 0.60) /\
  (0.075 <= notroll_prob_90d b <= 0.90) /\
  (0.3 <= margin_factor b <= 4.8).
Proof.
  cbv zeta. unfold scenario_to_behavior_params.
  cbn [deposit_runoff_30d_pct notroll_prob_30d notroll_prob_90d margin_factor].
  rewrite !severity_lookup.
  set (m := severity_multiplier severity).
  assert (Hm : 0.6 <= m <= 1.6).
  { subst m. destruct (severity_multiplier_cases severity) as [-> | [-> | ->]];
      split; vm_compute; discriminate. }
  clearbody m.
  set (v := default 18 (vix macro)).
  set (hy := default 400 (credit_spreads_hy macro)).
  set (baa := default 180 (credit_spreads_baa macro)).
  set (t := default 4.2 (us10y_yield macro)).
  assert (H30 : 5 <= Py.max 5 (Py.min 60 ((5 + 0.6 * (v - 18) + 0.05 * (hy - 400)) * m))
                <= 60) by (py_minmax; lra).
  revert H30.
  generalize (Py.max 5 (Py.min 60 ((5 + 0.6 * (v - 18) + 0.05 * (hy - 400)) * m))).
  intros n30 H30.
  assert (Hdiv : forall x, x / 100.0 == x * 0.01) by (intros; field).
  repeat apply conj.
  - rewrite Hdiv. py_minmax; lra.
  - rewrite Hdiv. py_minmax; lra.
  - rewrite Hdiv. lra.
  - rewrite Hdiv. lra.
  - rewrite !Hdiv. py_minmax; lra.
  - rewrite !Hdiv. py_minmax; lra.
  - py_minmax; nra.
  - py_minmax; nra.
Qed.

(** The 90-day non-roll probability is one and a half times the 30-day
    probability, hence never below it: the cap at 90% is only reached when
    the 30-day probability is at its own cap of 60%. *)
Theorem notroll_90d_is_one_and_a_half_30d macro severity :
  let b := scenario_to_behavior_params macro severity in
  notroll_prob_90d b == 1.5 * notroll_prob_30d b /\
  notroll_prob_30d b <= notroll_prob_90d b.
Proof.
  cbv zeta. unfold scenario_to_behavior_params.
  cbn [notroll_prob_30d notroll_prob_90d].
  set (x := _ * default 1.0 (SEVERITY_TABLE !! severity)).
  assert (H30 : 5 <= Py.max 5 (Py.min 60 x) <= 60) by (py_minmax; lra).
  revert H30. generalize (Py.max 5 (Py.min 60 x)). intros n30 H30.
  assert (Hdiv : forall y, y / 100.0 == y * 0.01) by (intros; field).
  rewrite !Hdiv. split; py_minmax; lra.
Qed.

(** A severity label other than "mild", "base" and "severe" gives the
    parameters of "base". *)
Theorem unknown_severity_is_base macro severity :
  severity <> "mild"%string -> severity <> "base"%string ->
  severity <> "severe"%string ->
  scenario_to_behavior_params macro severity
  = scenario_to_behavior_params macro "base".
Proof.
  intros Hm Hb Hs. unfold scenario_to_behavior_params.
  replace (SEVERITY_TABLE !! severity) with (@None Q).
  - reflexivity.
  - unfold SEVERITY_TABLE. by rewrite !lookup_insert_ne, lookup_empty.
Qed.

Lemma unknown_severity_is_base_witness :
  scenario_to_behavior_params
    {| vix := Some 30; credit_spreads_baa := None;
       credit_spreads_hy := Some 650; us10y_yield := None |} "extreme"
  = scenario_to_behavior_params
      {| vix := Some 30; credit_spreads_baa := None;
         credit_spreads_hy := Some 650; us10y_yield := None |} "base".
Proof.
  apply unknown_severity_is_base; discriminate.
Defined.

(** For one macro input, each behaviour parameter under "mild" is at most
    its value under "base". *)
Theorem mild_below_base macro :
  let m := scenario_to_behavior_params macro "mild" in
  let b := scenario_to_behavior_params macro "base" in
  deposit_runoff_30d_pct m <= deposit_runoff_30d_pct b /\
  notroll_prob_30d m <= notroll_prob_30d b /\
  notroll_prob_90d m <= notroll_prob_90d b /\
  margin_factor m <= margin_factor b.
Proof.
  cbv zeta. unfold scenario_to_behavior_params.
  cbn [deposit_runoff_30d_pct notroll_prob_30d notroll_prob_90d margin_factor].
  rewrite !severity_lookup.
  change (severity_multiplier "mild") with 0.6.
  change (severity_multiplier "base") with 1.0.
  set (v := default 18 (vix macro)).
  set (hy := default 400 (credit_spreads_hy macro)).
  set (baa := default 180 (credit_spreads_baa macro)).
  set (t := default 4.2 (us10y_yield macro)).
  assert (H30 : Py.max 5 (Py.min 60 ((5 + 0.6 * (v - 18) + 0.05 * (hy - 400)) * 0.6))
                <= Py.max 5 (Py.min 60 ((5 + 0.6 * (v - 18) + 0.05 * (hy - 400)) * 1.0))).
  { py_minmax; lra. }
  repeat split.
  - apply div100_le. py_minmax; lra.
  - apply div100_le, H30.
  - apply div100_le.
    apply div100_le in H30. revert H30.
    set (a := Py.max 5 _ / 100.0). set (c := Py.max 5 _ / 100.0).
    intros. py_minmax; lra.
  - py_minmax; lra.
Qed.

(** ** Daily roll-up: what a bucket holds *)

Section RollUpFacts.

Lemma get_in_bucket_at (daily : gmap Z Bucket) d :
  get_in daily d = b_in (bucket_at daily d).
Proof. unfold get_in, bucket_at. by destruct (daily !! d). Qed.

Lemma get_out_bucket_at (daily : gmap Z Bucket) d :
  get_out daily d = b_out (bucket_at daily d).
Proof. unfold get_out, bucket_at. by destruct (daily !! d). Qed.

Lemma series_eq_intro (r s : gmap Z Bucket) :
  dom r = dom s ->
  (forall d, get_in r d == get_in s d /\ get_out r d == get_out s d) ->
  series_eq r s.
Proof.
  intros Hdom Hval d. specialize (Hval d). unfold get_in, get_out in Hval.
  destruct (r !! d) as [a|] eqn:Er, (s !! d) as [b|] eqn:Es.
  - exact Hval.
  - assert (d ∈ dom s) as Hd by (rewrite <- Hdom; apply elem_of_dom; eauto).
    apply elem_of_dom in Hd as [? ?]. congruence.
  - assert (d ∈ dom r) as Hd by (rewrite Hdom; apply elem_of_dom; eauto).
    apply elem_of_dom in Hd as [? ?]. congruence.
  - exact I.
Qed.

(** The legs of every bucket after one event, in terms of the legs before. *)
Lemma roll_step_legs asof h daily cf d :
  let hit := in_window asof h cf && (date_of (cf_date cf) =? d)%Z in
  get_in (roll_step asof (asof + timedelta_days h) daily cf) d
  == get_in daily d
     + (if hit && Qle_bool 0 (cf_amount cf) then cf_amount cf else 0) /\
  get_out (roll_step asof (asof + timedelta_days h) daily cf) d
  == get_out daily d
     + (if hit && negb (Qle_bool 0 (cf_amount cf)) then - cf_amount cf else 0).
Proof.
  cbv zeta. rewrite !get_in_bucket_at, !get_out_bucket_at.
  unfold roll_step.
  change ((asof <? cf_date cf) && (cf_date cf <=? asof + timedelta_days h))%Z
    with (in_window asof h cf).
  destruct (in_window asof h cf); cbn [andb]; [| split; lra].
  destruct (Qle_bool 0 (cf_amount cf)); cbn [negb].
  - rewrite bucket_at_add_in. destruct (Z.eqb_spec (date_of (cf_date cf)) d).
    + rewrite decide_True by done. cbn. split; lra.
    + rewrite decide_False by done. cbn. split; lra.
  - rewrite bucket_at_add_out. destruct (Z.eqb_spec (date_of (cf_date cf)) d).
    + rewrite decide_True by done. cbn. split; lra.
    + rewrite decide_False by done. cbn. split; lra.
Qed.

Lemma roll_fold_legs asof h cashflows daily d :
  let r := fold_left (roll_step asof (asof + timedelta_days h)) cashflows daily in
  get_in r d == get_in daily d + day_inflow cashflows asof h d /\
  get_out r d == get_out daily d + day_outflow cashflows asof h d.
Proof.
  cbv zeta. revert daily.
  induction cashflows as [|cf cfs IH]; intros daily; cbn [fold_left].
  - cbn. split; lra.
  - destruct (IH (roll_step asof (asof + timedelta_days h) daily cf))
      as [Hi Ho].
    destruct (roll_step_legs asof h daily cf d) as [Si So].
    rewrite Hi, Ho, Si, So. unfold day_inflow, day_outflow. cbn [foldr].
    split; lra.
Qed.

(** The dates of the series after one event. *)
Lemma roll_step_dom asof end_ daily cf :
  dom (roll_step asof end_ daily cf)
  = if ((asof <? cf_date cf) && (cf_date cf <=? end_))%Z
    then {[ date_of (cf_date cf) ]} ∪ dom daily
    else dom daily.
Proof.
  unfold roll_step. destruct (_ && _)%Z; [| reflexivity].
  unfold add_in, add_out.
  destruct (Qle_bool 0 (cf_amount cf)); by rewrite dom_insert_L.
Qed.

Lemma roll_fold_dom asof h cashflows daily d :
  d ∈ dom (fold_left (roll_step asof (asof + timedelta_days h)) cashflows daily)
  <-> d ∈ dom daily \/
      exists cf, cf ∈ cashflows /\ in_window asof h cf = true /\
                 date_of (cf_date cf) = d.
Proof.
  revert daily. induction cashflows as [|cf cfs IH]; intros daily;
    cbn [fold_left].
  - split; [by left |]. intros [H|(cf & Hcf & _)]; [exact H |].
    by apply not_elem_of_nil in Hcf.
  - rewrite IH, roll_step_dom. fold (in_window asof h cf).
    destruct (in_window asof h cf) eqn:Ew.
    + rewrite elem_of_union, elem_of_singleton. split.
      * intros [[->|H]|(cf' & Hcf' & Hw & Hd)].
        -- right. exists cf. split; [apply list_elem_of_here | done].
        -- by left.
        -- right. exists cf'. split; [by apply list_elem_of_further | done].
      * intros [H|(cf' & Hcf' & Hw & Hd)]; [by left; right |].
        apply elem_of_cons in Hcf' as [->|Hcf'].
        -- left. by left.
        -- right. by exists cf'.
    + split.
      * intros [H|(cf' & Hcf' & Hw & Hd)]; [by left |].
        right. exists cf'. split; [by apply list_elem_of_further | done].
      * intros [H|(cf' & Hcf' & Hw & Hd)]; [by left |].
        apply elem_of_cons in Hcf' as [->|Hcf']; [congruence |].
        right. by exists cf'.
Qed.

Lemma date_of_days asof i : date_of (asof + timedelta_days i) = (date_of asof + i)%Z.
Proof. unfold date_of, timedelta_days, day_seconds. by rewrite Z.div_add. Qed.

Lemma date_of_mono t1 t2 : (t1 <= t2)%Z -> (date_of t1 <= date_of t2)%Z.
Proof. unfold date_of, day_seconds. intros H. by apply Z.div_le_mono. Qed.

End RollUpFacts.

(** Every bucket of a rolled-up ledger holds, as inflow, the sum of the
    non-negative amounts of the in-window events of its day and, as
    outflow, the sum of the magnitudes of the negative ones. *)
Theorem roll_up_day_totals (cashflows : list CashflowEvent)
    (as_of horizon_days d : Z) :
  let r := roll_daily_contractual_flows_detail cashflows as_of horizon_days in
  get_in r d == day_inflow cashflows as_of horizon_days d /\
  get_out r d == day_outflow cashflows as_of horizon_days d.
Proof.
  cbv zeta. unfold roll_daily_contractual_flows_detail.
  destruct (roll_fold_legs as_of horizon_days cashflows ∅ d) as [Hi Ho].
  rewrite Hi, Ho. unfold get_in, get_out. rewrite lookup_empty. split; lra.
Qed.

(** Both legs of every bucket of a rolled-up ledger are non-negative,
    whatever the signs and dates of the events. *)
Theorem roll_up_legs_nonneg (cashflows : list CashflowEvent)
    (as_of horizon_days d : Z) (b : Bucket) :
  roll_daily_contractual_flows_detail cashflows as_of horizon_days !! d
  = Some b ->
  0 <= b_in b /\ 0 <= b_out b.
Proof.
  unfold roll_daily_contractual_flows_detail.
  set (end_ := (as_of + timedelta_days horizon_days)%Z). clearbody end_.
  assert (Hgen : forall daily : gmap Z Bucket,
    (forall d b, daily !! d = Some b -> 0 <= b_in b /\ 0 <= b_out b) ->
    forall d b, fold_left (roll_step as_of end_) cashflows daily !! d = Some b ->
                0 <= b_in b /\ 0 <= b_out b).
  { clear d b. induction cashflows as [|cf cfs IH]; intros daily Hd;
      cbn [fold_left]; [exact Hd |].
    apply IH. intros d b. unfold roll_step.
    destruct (_ && _)%Z; [| apply Hd].
    assert (Hz : 0 <= b_in (bucket_at daily (date_of (cf_date cf))) /\
                 0 <= b_out (bucket_at daily (date_of (cf_date cf)))).
    { unfold bucket_at.
      destruct (daily !! date_of (cf_date cf)) as [b0|] eqn:E;
        [by apply (Hd _ _ E) | cbn; split; lra]. }
    destruct (Qle_bool 0 (cf_amount cf)) eqn:Ea; unfold add_in, add_out.
    - apply Qle_bool_iff in Ea.
      destruct (decide (date_of (cf_date cf) = d)) as [<-|Hne].
      + rewrite lookup_insert_eq. intros [= <-]. cbn [b_in b_out]. split; lra.
      + rewrite lookup_insert_ne by done. apply Hd.
    - assert (cf_amount cf < 0) as Hneg.
      { destruct (Qlt_le_dec (cf_amount cf) 0) as [H|H]; [exact H |].
        apply Qle_bool_iff in H. congruence. }
      destruct (decide (date_of (cf_date cf) = d)) as [<-|Hne].
      + rewrite lookup_insert_eq. intros [= <-]. cbn [b_in b_out]. split; lra.
      + rewrite lookup_insert_ne by done. apply Hd. }
  apply Hgen. intros d' b'. by rewrite lookup_empty.
Qed.

Lemma roll_up_legs_nonneg_witness :
  exists b,
    roll_daily_contractual_flows_detail [sample_leg] 0 180 !! 40%Z = Some b /\
    0 <= b_in b /\ 0 <= b_out b.
Proof.
  eexists. split; [vm_compute; reflexivity |].
  apply (roll_up_legs_nonneg [sample_leg] 0 180 40).
  vm_compute. reflexivity.
Defined.

(** A date has a bucket in a rolled-up ledger exactly when an event of that
    day is dated strictly after the anchor and at most [horizon_days] days
    after it; such a date is never before the anchor's day nor more than
    [horizon_days] days after it. *)
Theorem roll_up_dates (cashflows : list CashflowEvent)
    (as_of horizon_days d : Z) :
  let r := roll_daily_contractual_flows_detail cashflows as_of horizon_days in
  (d ∈ dom r <->
   exists cf, cf ∈ cashflows /\
              (as_of < cf_date cf <= as_of + timedelta_days horizon_days)%Z /\
              date_of (cf_date cf) = d) /\
  (d ∈ dom r -> (date_of as_of <= d <= date_of as_of + horizon_days)%Z).
Proof.
  cbv zeta. unfold roll_daily_contractual_flows_detail.
  assert (Hiff :
    d ∈ dom (fold_left (roll_step as_of (as_of + timedelta_days horizon_days))
               cashflows ∅)
    <-> exists cf, cf ∈ cashflows /\
                   (as_of < cf_date cf <= as_of + timedelta_days horizon_days)%Z /\
                   date_of (cf_date cf) = d).
  { rewrite roll_fold_dom, dom_empty_L. unfold in_window. split.
    - intros [H|(cf & Hcf & Hw & Hd)]; [by apply not_elem_of_empty in H |].
      exists cf. apply andb_true_iff in Hw as [?%Z.ltb_lt ?%Z.leb_le]. done.
    - intros (cf & Hcf & [Hlo Hhi] & Hd). right. exists cf.
      apply Z.ltb_lt in Hlo. apply Z.leb_le in Hhi.
      by rewrite Hlo, Hhi. }
  split; [exact Hiff |].
  intros (cf & _ & [Hlo Hhi] & <-)%Hiff.
  rewrite <- date_of_days. split; apply date_of_mono; lia.
Qed.

Lemma roll_up_dates_witness :
  (date_of 0 <= 40 <= date_of 0 + 180)%Z.
Proof.
  apply (proj2 (roll_up_dates [sample_leg] 0 180 40)).
  apply elem_of_dom. eexists. vm_compute. reflexivity.
Defined.

(** ** Series combiner: sums, order, and the roll-up of a joined ledger *)

Section CombinerFacts.

Lemma combine_one_legs (out s : gmap Z Bucket) d :
  get_in (combine_one out s) d == get_in out d + get_in s d /\
  get_out (combine_one out s) d == get_out out d + get_out s d.
Proof.
  unfold get_in, get_out. rewrite combine_one_lookup. unfold bucket_at.
  destruct (s !! d) as [io|], (out !! d) as [o|];
    cbv [default from_option zero_bucket b_in b_out id]; split; lra.
Qed.

Lemma combine_one_dom (out s : gmap Z Bucket) :
  dom (combine_one out s) = dom out ∪ dom s.
Proof.
  apply set_eq. intros d.
  rewrite elem_of_union, !elem_of_dom, combine_one_lookup.
  destruct (s !! d) as [io|]; split.
  - intros _. right. eauto.
  - intros _. eauto.
  - intros H. by left.
  - intros [H|[? ?]]; [exact H | discriminate].
Qed.

Lemma combine_fold_legs (series : list (gmap Z Bucket)) (out : gmap Z Bucket) d :
  get_in (fold_left combine_one series out) d
  == get_in out d + series_sum get_in series d /\
  get_out (fold_left combine_one series out) d
  == get_out out d + series_sum get_out series d.
Proof.
  revert out. induction series as [|s l IH]; intros out; cbn [fold_left].
  - cbn. split; lra.
  - destruct (IH (combine_one out s)) as [Hi Ho].
    destruct (combine_one_legs out s d) as [Si So].
    rewrite Hi, Ho, Si, So. unfold series_sum. cbn [foldr]. split; lra.
Qed.

Lemma combine_fold_dom (series : list (gmap Z Bucket)) (out : gmap Z Bucket) :
  dom (fold_left combine_one series out) = dom out ∪ ⋃ (dom <$> series).
Proof.
  revert out. induction series as [|s l IH]; intros out; cbn [fold_left].
  - cbn. by rewrite union_empty_r_L.
  - rewrite IH, combine_one_dom. cbn. by rewrite (assoc_L (∪)).
Qed.

Lemma series_sum_perm leg (l l' : list (gmap Z Bucket)) d :
  Permutation l l' -> series_sum leg l d == series_sum leg l' d.
Proof.
  unfold series_sum. induction 1 as [|x l l' _ IH|x y l|l l' l'' _ IH1 _ IH2];
    cbn [foldr].
  - reflexivity.
  - rewrite IH. reflexivity.
  - lra.
  - rewrite IH1. exact IH2.
Qed.

Lemma combine_legs (series : list (gmap Z Bucket)) d :
  get_in (combine_daily_detail series) d == series_sum get_in series d /\
  get_out (combine_daily_detail series) d == series_sum get_out series d.
Proof.
  unfold combine_daily_detail.
  destruct (combine_fold_legs series ∅ d) as [Hi Ho]. rewrite Hi, Ho.
  unfold get_in, get_out. rewrite lookup_empty. split; lra.
Qed.

Lemma combine_dom (series : list (gmap Z Bucket)) :
  dom (combine_daily_detail series) = ⋃ (dom <$> series).
Proof.
  unfold combine_daily_detail.
  by rewrite combine_fold_dom, dom_empty_L, union_empty_l_L.
Qed.

Lemma roll_legs cashflows as_of horizon_days d :
  get_in (roll_daily_contractual_flows_detail cashflows as_of horizon_days) d
  == day_inflow cashflows as_of horizon_days d /\
  get_out (roll_daily_contractual_flows_detail cashflows as_of horizon_days) d
  == day_outflow cashflows as_of horizon_days d.
Proof.
  unfold roll_daily_contractual_flows_detail.
  destruct (roll_fold_legs as_of horizon_days cashflows ∅ d) as [Hi Ho].
  rewrite Hi, Ho. unfold get_in, get_out. rewrite lookup_empty. split; lra.
Qed.

End CombinerFacts.

(** The combined series holds at every date the sum of the inflows and the
    sum of the outflows of the inputs (a series without the date counts
    for zero), and has a bucket exactly on the dates of some input; with
    no input it is empty. *)
Theorem combine_is_pointwise_sum (series : list (gmap Z Bucket)) (d : Z) :
  let r := combine_daily_detail series in
  get_in r d == series_sum get_in series d /\
  get_out r d == series_sum get_out series d /\
  (d ∈ dom r <-> exists s, s ∈ series /\ d ∈ dom s).
Proof.
  cbv zeta. destruct (combine_legs series d) as [Hi Ho].
  split; [exact Hi |]. split; [exact Ho |].
  rewrite combine_dom, elem_of_union_list. split.
  - intros (X & HX & Hd). apply list_elem_of_fmap in HX as (s & -> & Hs).
    eauto.
  - intros (s & Hs & Hd). exists (dom s). split; [| exact Hd].
    apply list_elem_of_fmap. eauto.
Qed.

(** The order in which the series are combined does not matter. *)
Theorem combine_order_irrelevant (l l' : list (gmap Z Bucket)) :
  Permutation l l' ->
  series_eq (combine_daily_detail l) (combine_daily_detail l').
Proof.
  intros Hperm. apply series_eq_intro.
  - rewrite !combine_dom. apply set_eq. intros d.
    rewrite !elem_of_union_list. split; intros (X & HX & Hd); exists X;
      (split; [| exact Hd]).
    + by rewrite <- Hperm.
    + by rewrite Hperm.
  - intros d. destruct (combine_legs l d) as [Hi Ho].
    destruct (combine_legs l' d) as [Hi' Ho'].
    rewrite Hi, Ho, Hi', Ho'.
    split; by apply series_sum_perm.
Qed.

Lemma combine_order_irrelevant_witness :
  let a : gmap Z Bucket := {[ 1%Z := {| b_in := 2; b_out := 3 |} ]} in
  let b : gmap Z Bucket := {[ 1%Z := {| b_in := 5; b_out := 0 |};
                              2%Z := {| b_in := 0; b_out := 7 |} ]} in
  series_eq (combine_daily_detail [a; b]) (combine_daily_detail [b; a]).
Proof.
  cbv zeta. apply combine_order_irrelevant. apply perm_swap.
Defined.

(** Rolling up a ledger made of two parts gives the combination of the two
    roll-ups: the same dates, and equal legs at each date. *)
Theorem roll_up_of_joined_ledger (l1 l2 : list CashflowEvent)
    (as_of horizon_days : Z) :
  series_eq
    (roll_daily_contractual_flows_detail (l1 ++ l2) as_of horizon_days)
    (combine_daily_detail
       [roll_daily_contractual_flows_detail l1 as_of horizon_days;
        roll_daily_contractual_flows_detail l2 as_of horizon_days]).
Proof.
  apply series_eq_intro.
  - rewrite combine_dom. cbn. rewrite union_empty_r_L.
    apply set_eq. intros d. rewrite elem_of_union.
    unfold roll_daily_contractual_flows_detail.
    rewrite !roll_fold_dom, dom_empty_L. split.
    + intros [H|(cf & Hcf & Hw)]; [by apply not_elem_of_empty in H |].
      apply elem_of_app in Hcf as [Hcf|Hcf]; [left | right]; right; eauto.
    + intros [[H|(cf & Hcf & Hw)]|[H|(cf & Hcf & Hw)]];
        try (by apply not_elem_of_empty in H);
        right; exists cf; (split; [apply elem_of_app; auto | exact Hw]).
  - intros d. destruct (combine_legs
      [roll_daily_contractual_flows_detail l1 as_of horizon_days;
       roll_daily_contractual_flows_detail l2 as_of horizon_days] d) as [Hi Ho].
    rewrite Hi, Ho. unfold series_sum. cbn [foldr].
    rewrite roll_app.
    destruct (roll_fold_legs as_of horizon_days l2
                (roll_daily_contractual_flows_detail l1 as_of horizon_days) d)
      as [Fi Fo].
    rewrite Fi, Fo.
    destruct (roll_legs l2 as_of horizon_days d) as [Gi Go].
    rewrite Gi, Go. split; lra.
Qed.

(** ** KPI calculator: peak, ratio and survival *)

Section KpiFacts.

Variable detail : gmap Z Bucket.
Variable as_of : Z.
Variable hqla_base : Q.
Variable horizon_days : Z.

Local Abbreviation inflow := (get_in detail <$> kpi_days as_of horizon_days).
Local Abbreviation outflow := (get_out detail <$> kpi_days as_of horizon_days).
Local Abbreviation C := (cumulative_net detail as_of).

(** The running maximum after [n] days. *)
Lemma peak_loop_invariant (n : nat) :
  (n <= Z.to_nat horizon_days)%nat ->
  let '(cum, peak, _) := survival_loop inflow outflow hqla_base n in
  cum == C n /\ 0 <= peak /\
  (forall j, (1 <= j <= n)%nat -> C j <= peak) /\
  (peak == 0 \/ exists j, (1 <= j <= n)%nat /\ peak == C j).
Proof.
  induction n as [|n IH]; intros Hn.
  - cbn. split; [reflexivity |]. split; [lra |].
    split; [intros j Hj; lia | left; reflexivity].
  - unfold survival_loop in *. rewrite seq_S, fold_left_app.
    cbn [fold_left Nat.add].
    destruct (fold_left _ (seq 0 n) _) as [[cum peak] survival].
    destruct IH as (Hcum & Hpos & Hub & Hatt); [lia |].
    unfold survival_step. rewrite !nth_aligned by lia.
    set (c' := cum + _).
    assert (Hc : c' == C (S n)).
    { subst c'. cbn [cumulative_net]. rewrite Hcum. reflexivity. }
    clearbody c'. split; [exact Hc |].
    destruct (max_spec peak c') as [[Hlt ->]|[Hge ->]].
    + split; [lra |]. split.
      * intros j Hj. destruct (decide (j = S n)) as [->|Hne]; [lra |].
        apply Qle_trans with peak; [apply Hub; lia | lra].
      * right. exists (S n). split; [lia | exact Hc].
    + split; [exact Hpos |]. split.
      * intros j Hj. destruct (decide (j = S n)) as [->|Hne]; [lra |].
        apply Hub. lia.
      * destruct Hatt as [H0|(j & Hj & Hpj)]; [by left |].
        right. exists j. split; [lia | exact Hpj].
Qed.

(** The scan of the whole horizon, with what it leaves in the KPI set. *)
Lemma kpis_scan_facts :
  exists peak survival,
    peak_cumulative_outflow
      (compute_kpis_from_daily_detail detail as_of hqla_base horizon_days)
    = peak /\
    survival_days
      (compute_kpis_from_daily_detail detail as_of hqla_base horizon_days)
    = match survival with Some s => Z.of_nat s | None => horizon_days end /\
    scan_found detail as_of hqla_base (Z.to_nat horizon_days) survival /\
    0 <= peak /\
    (forall j, (1 <= j <= Z.to_nat horizon_days)%nat -> C j <= peak) /\
    (peak == 0 \/
     exists j, (1 <= j <= Z.to_nat horizon_days)%nat /\ peak == C j).
Proof.
  pose proof (survival_loop_invariant detail as_of hqla_base horizon_days
                (Z.to_nat horizon_days)) as Hs.
  pose proof (peak_loop_invariant (Z.to_nat horizon_days)) as Hp.
  unfold compute_kpis_from_daily_detail. rewrite kpi_days_length.
  destruct (survival_loop inflow outflow hqla_base (Z.to_nat horizon_days))
    as [[cum peak] survival].
  exists peak, survival. cbn [peak_cumulative_outflow survival_days].
  destruct Hs as [_ Hfound]; [lia |].
  destruct Hp as (_ & Hpos & Hub & Hatt); [lia |].
  repeat split; assumption.
Qed.

Lemma worst_30_ge_1 inflow' outflow' n : 1.0 <= worst_30_loop inflow' outflow' n.
Proof.
  rewrite worst_30_loop_fold.
  apply (fold_max_spec (loop_net inflow' outflow') (seq 0 (n - 29)) 1.0).
Qed.

End KpiFacts.

(** [peak_cumulative_outflow] is the largest cumulative net outflow over
    the days of the horizon, floored at zero: it is non-negative, at least
    the cumulative net outflow of every day, and is zero or the cumulative
    net outflow of one of the days. *)
Theorem peak_is_floored_cumulative_max
    (detail : gmap Z Bucket) (as_of : Z) (hqla_base : Q) (horizon_days : Z) :
  let p := peak_cumulative_outflow
             (compute_kpis_from_daily_detail detail as_of hqla_base
                                             horizon_days) in
  0 <= p /\
  (forall k : nat, (1 <= k)%nat -> (Z.of_nat k <= horizon_days)%Z ->
                   cumulative_net detail as_of k <= p) /\
  (p == 0 \/
   exists k : nat, (1 <= k)%nat /\ (Z.of_nat k <= horizon_days)%Z /\
                   p == cumulative_net detail as_of k).
Proof.
  cbv zeta.
  destruct (kpis_scan_facts detail as_of hqla_base horizon_days)
    as (peak & survival & -> & _ & _ & Hpos & Hub & Hatt).
  split; [exact Hpos |]. split.
  - intros k Hk1 Hkh. apply Hub. lia.
  - destruct Hatt as [H0|(j & Hj & Hpj)]; [by left |].
    right. exists j. repeat split; [lia | lia | exact Hpj].
Qed.

Lemma peak_is_floored_cumulative_max_witness :
  let detail : gmap Z Bucket :=
    {[ 1%Z := {| b_in := 0; b_out := 3 |};
       2%Z := {| b_in := 9; b_out := 4 |} ]} in
  cumulative_net detail 0 1
  <= peak_cumulative_outflow (compute_kpis_from_daily_detail detail 0 5 3).
Proof.
  cbv zeta.
  destruct (peak_is_floored_cumulative_max
              {[ 1%Z := {| b_in := 0; b_out := 3 |};
                 2%Z := {| b_in := 9; b_out := 4 |} ]} 0 5 3)
    as (_ & Hub & _).
  apply (Hub 1%nat); lia.
Defined.

(** The coverage ratio times the worst 30-day outflow gives back the stock:
    the division is never by zero.  For a non-negative stock the ratio lies
    between zero and the stock. *)
Theorem lcr_times_worst_is_hqla
    (detail : gmap Z Bucket) (as_of : Z) (hqla_base : Q) (horizon_days : Z) :
  let k := compute_kpis_from_daily_detail detail as_of hqla_base horizon_days in
  lcr k * worst_30d_outflow k == hqla_base /\
  (0 <= hqla_base -> 0 <= lcr k <= hqla_base).
Proof.
  cbv zeta. unfold compute_kpis_from_daily_detail.
  destruct (survival_loop _ _ _ _) as [[_ peak] survival].
  cbn [lcr worst_30d_outflow].
  pose proof (worst_30_ge_1 (get_in detail <$> kpi_days as_of horizon_days)
                (get_out detail <$> kpi_days as_of horizon_days)
                (length (kpi_days as_of horizon_days))) as Hw.
  revert Hw. generalize (worst_30_loop (get_in detail <$> kpi_days as_of horizon_days)
                (get_out detail <$> kpi_days as_of horizon_days)
                (length (kpi_days as_of horizon_days))).
  intros w Hw. split.
  - field. lra.
  - intros Hh.
    assert (Hinv : 0 < / w <= 1).
    { split; [apply Qinv_lt_0_compat; lra |].
      apply Qle_shift_inv_r; lra. }
    unfold Qdiv. split; nra.
Qed.

Lemma lcr_times_worst_is_hqla_witness :
  let detail : gmap Z Bucket := {[ 1%Z := {| b_in := 0; b_out := 10 |} ]} in
  0 <= lcr (compute_kpis_from_daily_detail detail 0 5 31) <= 5.
Proof.
  cbv zeta.
  apply (proj2 (lcr_times_worst_is_hqla
                  {[ 1%Z := {| b_in := 0; b_out := 10 |} ]} 0 5 31)).
  vm_compute. discriminate.
Defined.

(** With fewer than 30 days in the horizon there is no 30-day window: the
    worst outflow is the floor 1.0 and the ratio is the stock itself. *)
Theorem short_horizon_has_no_window
    (detail : gmap Z Bucket) (as_of : Z) (hqla_base : Q) (horizon_days : Z) :
  (horizon_days < 30)%Z ->
  let k := compute_kpis_from_daily_detail detail as_of hqla_base horizon_days in
  worst_30d_outflow k = 1.0 /\ lcr k == hqla_base.
Proof.
  intros Hh. cbv zeta. unfold compute_kpis_from_daily_detail.
  destruct (survival_loop _ _ _ _) as [[_ peak] survival].
  cbn [lcr worst_30d_outflow].
  unfold worst_30_loop. rewrite kpi_days_length.
  replace (Z.to_nat horizon_days - 29)%nat with 0%nat by lia.
  cbn [seq fold_left]. split; [reflexivity | field].
Qed.

Lemma short_horizon_has_no_window_witness :
  let detail : gmap Z Bucket := {[ 1%Z := {| b_in := 0; b_out := 500 |} ]} in
  worst_30d_outflow (compute_kpis_from_daily_detail detail 0 5 29) = 1.0.
Proof.
  cbv zeta.
  apply (short_horizon_has_no_window
           {[ 1%Z := {| b_in := 0; b_out := 500 |} ]} 0 5 29).
  lia.
Defined.

(** A larger stock never shortens survival. *)
Theorem survival_days_monotone_in_hqla
    (detail : gmap Z Bucket) (as_of : Z) (h1 h2 : Q) (horizon_days : Z) :
  h1 <= h2 ->
  (survival_days (compute_kpis_from_daily_detail detail as_of h1 horizon_days)
   <= survival_days
        (compute_kpis_from_daily_detail detail as_of h2 horizon_days))%Z.
Proof.
  intros Hle.
  destruct (survival_days_scan detail as_of h1 horizon_days)
    as (_ & _ & s1 & _ & F1 & ->).
  destruct (survival_days_scan detail as_of h2 horizon_days)
    as (_ & _ & s2 & _ & F2 & ->).
  unfold scan_found in F1, F2.
  destruct s1 as [k1|], s2 as [k2|].
  - destruct F1 as (R1 & E1 & B1), F2 as (R2 & E2 & B2).
    destruct (le_lt_dec k1 k2) as [H|H]; [lia |].
    specialize (B1 k2 ltac:(lia)). lra.
  - destruct F1 as (R1 & _ & _). lia.
  - destruct F2 as (R2 & E2 & _). specialize (F1 k2 R2). lra.
  - lia.
Qed.

Lemma survival_days_monotone_in_hqla_witness :
  let detail : gmap Z Bucket :=
    {[ 1%Z := {| b_in := 0; b_out := 3 |};
       2%Z := {| b_in := 0; b_out := 4 |} ]} in
  (survival_days (compute_kpis_from_daily_detail detail 0 2 3)
   <= survival_days (compute_kpis_from_daily_detail detail 0 5 3))%Z.
Proof.
  cbv zeta. apply survival_days_monotone_in_hqla. vm_compute. discriminate.
Defined.

(** A stock that covers the peak cumulative outflow survives the whole
    horizon; a survival shorter than the horizon means the peak exceeds the
    stock. *)
Theorem peak_covered_survives_horizon
    (detail : gmap Z Bucket) (as_of : Z) (hqla_base : Q) (horizon_days : Z) :
  let k := compute_kpis_from_daily_detail detail as_of hqla_base horizon_days in
  (peak_cumulative_outflow k <= hqla_base -> survival_days k = horizon_days) /\
  ((survival_days k < horizon_days)%Z -> hqla_base < peak_cumulative_outflow k).
Proof.
  cbv zeta.
  destruct (kpis_scan_facts detail as_of hqla_base horizon_days)
    as (peak & survival & -> & -> & Hfound & _ & Hub & _).
  unfold scan_found in Hfound. destruct survival as [s|].
  - destruct Hfound as (Hs & Hex & _). specialize (Hub s Hs). split.
    + intros Hp. lra.
    + intros _. lra.
  - split; [reflexivity | lia].
Qed.

Lemma peak_covered_survives_horizon_witness :
  let detail : gmap Z Bucket :=
    {[ 1%Z := {| b_in := 0; b_out := 3 |};
       2%Z := {| b_in := 0; b_out := 4 |} ]} in
  survival_days (compute_kpis_from_daily_detail detail 0 7 3) = 3%Z /\
  5 < peak_cumulative_outflow (compute_kpis_from_daily_detail detail 0 5 3).
Proof.
  cbv zeta. split.
  - apply (proj1 (peak_covered_survives_horizon
                    {[ 1%Z := {| b_in := 0; b_out := 3 |};
                       2%Z := {| b_in := 0; b_out := 4 |} ]} 0 7 3)).
    vm_compute. discriminate.
  - apply (proj2 (peak_covered_survives_horizon
                    {[ 1%Z := {| b_in := 0; b_out := 3 |};
                       2%Z := {| b_in := 0; b_out := 4 |} ]} 0 5 3)).
    vm_compute. reflexivity.
Defined.

(** ** Instrument impact applier: what is appended *)

Section Appended.

Variable inst_map : gmap string Instrument.
Variable futures : gmap string (list CashflowEvent).

(** Every impact appends a list of at most two events that does not depend
    on the ledger built so far; each of them carries the impact's ["id"],
    which is the id of an instrument of the portfolio. *)
Lemma apply_impact_appends (imp : InstrumentImpact) :
  exists added,
    (forall new_cfs,
        apply_impact inst_map futures new_cfs imp = new_cfs ++ added) /\
    (length added <= 2)%nat /\
    (forall e, e ∈ added ->
               imp_id imp = Some (cf_instrument_id e) /\
               is_Some (inst_map !! cf_instrument_id e)).
Proof.
  unfold apply_impact.
  destruct (imp_id imp) as [id|] eqn:Hid; cbn [mbind option_bind];
    [| exists []; split; [intros; by rewrite app_nil_r |];
       split; [cbn; lia | intros e []%not_elem_of_nil]].
  destruct (inst_map !! id) as [inst|] eqn:Hinst;
    [| exists []; split; [intros; by rewrite app_nil_r |];
       split; [cbn; lia | intros e []%not_elem_of_nil]].
  assert (His : forall e, cf_instrument_id e = id ->
                          Some id = Some (cf_instrument_id e) /\
                          is_Some (inst_map !! cf_instrument_id e)).
  { intros e ->. split; [reflexivity | by rewrite Hinst]. }
  assert (Hnil : exists added : list CashflowEvent,
             (forall new_cfs, new_cfs = new_cfs ++ added) /\
             (length added <= 2)%nat /\
             (forall e, e ∈ added ->
                        Some id = Some (cf_instrument_id e) /\
                        is_Some (inst_map !! cf_instrument_id e))).
  { exists []. split; [intros; by rewrite app_nil_r |].
    split; [cbn; lia | intros e []%not_elem_of_nil]. }
  destruct (imp_date imp) as [ds|]; [| exact Hnil].
  destruct (Qle_bool _ 0); [exact Hnil |].
  destruct (first_future_cf futures id) as [old|];
    cbn [fmap option_fmap option_map];
    destruct (_ || _);
    try destruct (bool_decide (_ ∈ LIAB_TYPES));
    try destruct (action_in _ _);
    try destruct (action_is _ "extend_maturity");
    try destruct (imp_new_maturity imp);
    try destruct (bool_decide (_ ∈ ASSET_TYPES));
    try destruct (action_in _ _);
    try exact Hnil;
    unfold add_cf;
    (eexists; split;
     [intros new_cfs; rewrite <- ?app_assoc; reflexivity |];
     split; [cbn; lia |];
     intros e He; apply His;
     repeat (apply elem_of_cons in He as [->|He]; [reflexivity |]);
     by apply not_elem_of_nil in He).
Qed.

Lemma apply_impacts_appends (impacts : list InstrumentImpact)
    (cashflows : list CashflowEvent) :
  exists added,
    fold_left (apply_impact inst_map futures) impacts cashflows
    = cashflows ++ added /\
    (length added <= 2 * length impacts)%nat /\
    (forall e, e ∈ added ->
               is_Some (inst_map !! cf_instrument_id e) /\
               exists imp, imp ∈ impacts /\
                           imp_id imp = Some (cf_instrument_id e)).
Proof.
  revert cashflows. induction impacts as [|imp imps IH]; intros cashflows.
  - exists []. split; [by rewrite app_nil_r |].
    split; [cbn; lia | intros e []%not_elem_of_nil].
  - cbn [fold_left].
    destruct (apply_impact_appends imp) as (a1 & E1 & L1 & P1).
    rewrite E1.
    destruct (IH (cashflows ++ a1)) as (a2 & E2 & L2 & P2).
    exists (a1 ++ a2). split; [by rewrite E2, app_assoc |].
    split; [rewrite length_app; cbn [length]; lia |].
    intros e [He|He]%elem_of_app.
    + destruct (P1 e He) as [Hid Hin]. split; [exact Hin |].
      exists imp. split; [apply list_elem_of_here | exact Hid].
    + destruct (P2 e He) as (Hin & imp' & Himp' & Hid').
      split; [exact Hin |]. exists imp'.
      split; [by apply list_elem_of_further | exact Hid'].
Qed.

End Appended.

(** The amended ledger is the original ledger, unchanged and in order,
    followed by at most two events per impact; every appended event
    carries the ["id"] of one of the impacts, which is the id of an
    instrument of the portfolio.  With no impact the ledger is returned
    as it is. *)
Theorem impacts_only_append
    (cashflows : list CashflowEvent) (portfolio : Portfolio)
    (impacts : list InstrumentImpact) (as_of : Z) :
  exists added,
    apply_instrument_impacts_to_cashflows cashflows portfolio impacts as_of
    = cashflows ++ added /\
    (length added <= 2 * length impacts)%nat /\
    (forall e, e ∈ added ->
       is_Some (build_inst_map (liquidity_profile portfolio)
                  !! cf_instrument_id e) /\
       exists imp, imp ∈ impacts /\ imp_id imp = Some (cf_instrument_id e)).
Proof.
  unfold apply_instrument_impacts_to_cashflows. apply apply_impacts_appends.
Qed.

(** ** Instrument impact applier: which leg is the original leg *)

Section OriginalLeg.



End OriginalLeg.


(** ** Instrument impact applier: the other branches of the dispatch *)

Section Branches.

Lemma action_is_false act s :
  (forall a, act = Some a -> a <> s) -> action_is act s = false.
Proof.
  intros H. destruct act as [a|]; [| reflexivity]. cbn.
  apply String.eqb_neq. by apply H.
Qed.

Lemma action_in_false act ss :
  (forall a, act = Some a -> a ∉ ss) -> action_in act ss = false.
Proof.
  intros H. destruct act as [a|]; [| reflexivity]. cbn.
  apply bool_decide_eq_false_2. by apply H.
Qed.

(** The two taxonomies are disjoint. *)
Lemma asset_not_liability t : t ∈ ASSET_TYPES -> t ∉ LIAB_TYPES.
Proof.
  unfold ASSET_TYPES. rewrite !elem_of_union, !elem_of_singleton.
  intros [[-> | ->] | ->] Hl; by vm_compute in Hl.
Qed.

Variable cashflows : list CashflowEvent.
Variable portfolio : Portfolio.
Variable as_of : Z.
Variable before : list InstrumentImpact.
Variable imp : InstrumentImpact.
Variable id : string.
Variable inst : Instrument.
Variable date_s : Z.
Variable amt : Q.

Hypothesis Hwf : well_formed portfolio imp id inst date_s amt.

(** What the loop body computes for a well-formed impact: the dispatch
    alone is left. *)
Lemma appends_body (events : list CashflowEvent) :
  (forall new_cfs,
      apply_impact (build_inst_map (liquidity_profile portfolio))
                   (build_futures cashflows as_of) new_cfs imp
      = new_cfs ++ events) ->
  appends cashflows portfolio as_of before imp events.
Proof.
  intros H. unfold appends, apply_instrument_impacts_to_cashflows.
  rewrite fold_left_app. cbn [fold_left]. apply H.
Qed.

End Branches.

(** Reduces [apply_impact] on a well-formed impact to its dispatch. *)
Ltac impact_header Hwf :=
  let Hid := fresh "Hid" in
  let Hinst := fresh "Hinst" in
  let Hdate := fresh "Hdate" in
  let Hamt := fresh "Hamt" in
  let Hpos := fresh "Hpos" in
  destruct Hwf as (Hid & Hinst & Hdate & Hamt & Hpos);
  apply appends_body; intros new_cfs; unfold apply_impact;
  rewrite Hid; cbn [mbind option_bind]; rewrite Hinst, Hdate, Hamt;
  match goal with
  | |- context [Py.float_or0 (Some ?a)] =>
      change (Py.float_or0 (Some a)) with a
  end;
  rewrite (Qle_bool_false _ _ Hpos).

(** A margin call or an option exercise appends a single outflow of the
    amount on the impact date, whatever the type of the instrument and
    whether or not it has future legs. *)
Theorem margin_call_appends_one_outflow
    (cashflows : list CashflowEvent) (portfolio : Portfolio) (as_of : Z)
    (before : list InstrumentImpact) (imp : InstrumentImpact)
    (id : string) (inst : Instrument) (date_s : Z) (amt : Q) :
  well_formed portfolio imp id inst date_s amt ->
  imp_action imp = Some "margin_call"%string \/
  imp_action imp = Some "exercise_option"%string ->
  appends cashflows portfolio as_of before imp
          [impact_event id inst (- amt) date_s].
Proof.
  intros Hwf Hact. impact_header Hwf.
  destruct Hact as [-> | ->]; reflexivity.
Qed.

Lemma margin_call_appends_one_outflow_witness :
  apply_instrument_impacts_to_cashflows [sample_leg] sample_portfolio
    [sample_impact "margin_call" 25 None] 0
  = [sample_leg; impact_event "CD1" sample_cd (- 25) (5 * 86400)].
Proof.
  apply (margin_call_appends_one_outflow [sample_leg] sample_portfolio 0 []
           (sample_impact "margin_call" 25 None) "CD1" sample_cd
           (5 * 86400) 25).
  - repeat split; vm_compute; reflexivity.
  - left. reflexivity.
Defined.

(** Paying early, not rolling or terminating a liability appends the
    outflow on the impact date and, when the instrument has an original
    leg, an inflow of the same amount on that leg's date; without a future
    leg only the outflow is appended. *)
Theorem liability_early_exit_events
    (cashflows : list CashflowEvent) (portfolio : Portfolio) (as_of : Z)
    (before : list InstrumentImpact) (imp : InstrumentImpact)
    (id : string) (inst : Instrument) (date_s : Z) (amt : Q) (action : string) :
  well_formed portfolio imp id inst date_s amt ->
  dispatch_type inst ∈ LIAB_TYPES ->
  imp_action imp = Some action ->
  action ∈ ({[ "prepay"; "not_rollover"; "terminate" ]}%string : gset string) ->
  appends cashflows portfolio as_of before imp
    (impact_event id inst (- amt) date_s
     :: match original_leg cashflows as_of id with
        | Some old => [impact_event id inst amt (cf_date old)]
        | None => []
        end).
Proof.
  intros Hwf Hliab Hact Hin. impact_header Hwf.
  rewrite Hact.
  assert (action_is (Some action) "margin_call" = false) as ->.
  { apply action_is_false. intros a [= <-] ->. revert Hin.
    by vm_compute. }
  assert (action_is (Some action) "exercise_option" = false) as ->.
  { apply action_is_false. intros a [= <-] ->. revert Hin.
    by vm_compute. }
  cbn [orb]. unfold dispatch_type in Hliab.
  rewrite (bool_decide_eq_true_2 _ Hliab).
  cbn [action_in]. rewrite (bool_decide_eq_true_2 _ Hin).
  unfold original_leg, add_cf, impact_event.
  destruct (first_future_cf _ id) as [old|];
    cbn [fmap option_fmap option_map]; by rewrite <- ?app_assoc.
Qed.

Lemma liability_early_exit_events_witness :
  apply_instrument_impacts_to_cashflows [] sample_portfolio
    [sample_impact "terminate" 30 None] 0
  = [impact_event "CD1" sample_cd (- 30) (5 * 86400)].
Proof.
  apply (liability_early_exit_events [] sample_portfolio 0 []
           (sample_impact "terminate" 30 None) "CD1" sample_cd
           (5 * 86400) 30 "terminate").
  - repeat split; vm_compute; reflexivity.
  - apply (bool_decide_unpack _). vm_compute. exact I.
  - reflexivity.
  - apply (bool_decide_unpack _). vm_compute. exact I.
Defined.

(** Prepaying or terminating an asset mirrors the liability case: an inflow
    of the amount on the impact date and, when the instrument has an
    original leg, an outflow of the same amount on that leg's date. *)
Theorem asset_early_exit_events
    (cashflows : list CashflowEvent) (portfolio : Portfolio) (as_of : Z)
    (before : list InstrumentImpact) (imp : InstrumentImpact)
    (id : string) (inst : Instrument) (date_s : Z) (amt : Q) :
  well_formed portfolio imp id inst date_s amt ->
  dispatch_type inst ∈ ASSET_TYPES ->
  imp_action imp = Some "prepay"%string \/
  imp_action imp = Some "terminate"%string ->
  appends cashflows portfolio as_of before imp
    (impact_event id inst amt date_s
     :: match original_leg cashflows as_of id with
        | Some old => [impact_event id inst (- amt) (cf_date old)]
        | None => []
        end).
Proof.
  intros Hwf Hasset Hact. impact_header Hwf.
  unfold dispatch_type in Hasset.
  assert (bool_decide (lower (default "other"%string (inst_type inst))
                       ∈ LIAB_TYPES) = false) as ->.
  { apply bool_decide_eq_false_2. by apply asset_not_liability. }
  rewrite (bool_decide_eq_true_2 _ Hasset).
  unfold original_leg, add_cf, impact_event.
  destruct Hact as [-> | ->];
    (replace (action_in _ _) with true by (vm_compute; reflexivity));
    cbn [action_is String.eqb Ascii.eqb Bool.eqb orb andb];
    destruct (first_future_cf _ id) as [old|];
    cbn [fmap option_fmap option_map]; by rewrite <- ?app_assoc.
Qed.

Lemma asset_early_exit_events_witness :
  apply_instrument_impacts_to_cashflows [sample_coupon] sample_book
    [impact_on "BND1" "prepay" 200 None] 0
  = [sample_coupon;
     impact_event "BND1" sample_bond 200 (5 * 86400);
     impact_event "BND1" sample_bond (- 200) (60 * 86400)].
Proof.
  apply (asset_early_exit_events [sample_coupon] sample_book 0 []
           (impact_on "BND1" "prepay" 200 None) "BND1" sample_bond
           (5 * 86400) 200).
  - repeat split; vm_compute; reflexivity.
  - apply (bool_decide_unpack _). vm_compute. exact I.
  - left. reflexivity.
Defined.

(** Extending the maturity of an asset cancels the original inflow, when
    there is an original leg, with an outflow of its magnitude on its date,
    and adds an inflow of the impact's amount on the new maturity. *)
Theorem asset_extend_maturity_events
    (cashflows : list CashflowEvent) (portfolio : Portfolio) (as_of : Z)
    (before : list InstrumentImpact) (imp : InstrumentImpact)
    (id : string) (inst : Instrument) (date_s new_mat : Z) (amt : Q) :
  well_formed portfolio imp id inst date_s amt ->
  dispatch_type inst ∈ ASSET_TYPES ->
  imp_action imp = Some "extend_maturity"%string ->
  imp_new_maturity imp = Some new_mat ->
  appends cashflows portfolio as_of before imp
    ((match original_leg cashflows as_of id with
      | Some old =>
          [impact_event id inst (- Qabs (cf_amount old)) (cf_date old)]
      | None => []
      end) ++ [impact_event id inst amt new_mat]).
Proof.
  intros Hwf Hasset Hact Hmat. impact_header Hwf.
  unfold dispatch_type in Hasset.
  assert (bool_decide (lower (default "other"%string (inst_type inst))
                       ∈ LIAB_TYPES) = false) as ->.
  { apply bool_decide_eq_false_2. by apply asset_not_liability. }
  rewrite (bool_decide_eq_true_2 _ Hasset), Hact, Hmat.
  replace (action_in _ _) with false by (vm_compute; reflexivity).
  cbn [action_is String.eqb Ascii.eqb Bool.eqb orb andb].
  rewrite (truthy_of_pos _ Hpos), (Qabs_of_pos _ Hpos).
  unfold original_leg, add_cf, impact_event.
  destruct (first_future_cf _ id) as [old|];
    cbn [fmap option_fmap option_map]; by rewrite <- ?app_assoc.
Qed.

Lemma asset_extend_maturity_events_witness :
  apply_instrument_impacts_to_cashflows [sample_coupon] sample_book
    [impact_on "BND1" "extend_maturity" 450 (Some (120 * 86400)%Z)] 0
  = [sample_coupon;
     impact_event "BND1" sample_bond (- Qabs 500) (60 * 86400);
     impact_event "BND1" sample_bond 450 (120 * 86400)].
Proof.
  apply (asset_extend_maturity_events [sample_coupon] sample_book 0 []
           (impact_on "BND1" "extend_maturity" 450 (Some (120 * 86400)%Z))
           "BND1" sample_bond (5 * 86400) (120 * 86400) 450).
  - repeat split; vm_compute; reflexivity.
  - apply (bool_decide_unpack _). vm_compute. exact I.
  - reflexivity.
  - reflexivity.
Defined.

(** Extending a liability that has no future leg appends only the outflow
    of the impact's amount on the new maturity: there is nothing to
    offset. *)
Theorem liability_extend_without_leg
    (cashflows : list CashflowEvent) (portfolio : Portfolio) (as_of : Z)
    (before : list InstrumentImpact) (imp : InstrumentImpact)
    (id : string) (inst : Instrument) (date_s new_mat : Z) (amt : Q) :
  well_formed portfolio imp id inst date_s amt ->
  dispatch_type inst ∈ LIAB_TYPES ->
  imp_action imp = Some "extend_maturity"%string ->
  imp_new_maturity imp = Some new_mat ->
  future_legs cashflows as_of id = [] ->
  appends cashflows portfolio as_of before imp
          [impact_event id inst (- amt) new_mat].
Proof.
  intros Hwf Hliab Hact Hmat Hnone. impact_header Hwf.
  unfold dispatch_type in Hliab.
  rewrite (bool_decide_eq_true_2 _ Hliab), Hact, Hmat.
  replace (action_in _ _) with false by (vm_compute; reflexivity).
  cbn [action_is String.eqb Ascii.eqb Bool.eqb orb andb].
  rewrite (truthy_of_pos _ Hpos), (Qabs_of_pos _ Hpos).
  unfold first_future_cf. rewrite build_futures_lookup, Hnone.
  reflexivity.
Qed.

Lemma liability_extend_without_leg_witness :
  apply_instrument_impacts_to_cashflows [sample_coupon] sample_book
    [impact_on "CD1" "extend_maturity" 70 (Some (120 * 86400)%Z)] 0
  = [sample_coupon; impact_event "CD1" sample_cd (- 70) (120 * 86400)].
Proof.
  apply (liability_extend_without_leg [sample_coupon] sample_book 0 []
           (impact_on "CD1" "extend_maturity" 70 (Some (120 * 86400)%Z))
           "CD1" sample_cd (5 * 86400) (120 * 86400) 70).
  - repeat split; vm_compute; reflexivity.
  - apply (bool_decide_unpack _). vm_compute. exact I.
  - reflexivity.
  - reflexivity.
  - vm_compute. reflexivity.
Defined.

(** An instrument that is neither a liability nor an asset of the taxonomy
    (a derivative, a missing or an unknown type) gets the conservative
    fallback: a single outflow of the amount on the impact date, whatever
    the action. *)
Theorem other_type_appends_one_outflow
    (cashflows : list CashflowEvent) (portfolio : Portfolio) (as_of : Z)
    (before : list InstrumentImpact) (imp : InstrumentImpact)
    (id : string) (inst : Instrument) (date_s : Z) (amt : Q) :
  well_formed portfolio imp id inst date_s amt ->
  dispatch_type inst ∉ LIAB_TYPES ->
  dispatch_type inst ∉ ASSET_TYPES ->
  appends cashflows portfolio as_of before imp
          [impact_event id inst (- amt) date_s].
Proof.
  intros Hwf Hliab Hasset. impact_header Hwf.
  unfold dispatch_type in Hliab, Hasset.
  rewrite (bool_decide_eq_false_2 _ Hliab), (bool_decide_eq_false_2 _ Hasset).
  by destruct (_ || _).
Qed.

Lemma other_type_appends_one_outflow_witness :
  apply_instrument_impacts_to_cashflows [sample_coupon] sample_book
    [impact_on "IRS1" "terminate" 40 None] 0
  = [sample_coupon; impact_event "IRS1" sample_swap (- 40) (5 * 86400)].
Proof.
  apply (other_type_appends_one_outflow [sample_coupon] sample_book 0 []
           (impact_on "IRS1" "terminate" 40 None) "IRS1" sample_swap
           (5 * 86400) 40).
  - repeat split; vm_compute; reflexivity.
  - apply (bool_decide_unpack _). vm_compute. exact I.
  - apply (bool_decide_unpack _). vm_compute. exact I.
Defined.

(** A well-formed impact on a liability or an asset is dropped without a
    trace when its action is not one the dispatch handles for that kind:
    a missing or unknown action, [not_rollover] on an asset, or
    [extend_maturity] without a new maturity. *)
Theorem unhandled_action_appends_nothing
    (cashflows : list CashflowEvent) (portfolio : Portfolio) (as_of : Z)
    (before : list InstrumentImpact) (imp : InstrumentImpact)
    (id : string) (inst : Instrument) (date_s : Z) (amt : Q) :
  well_formed portfolio imp id inst date_s amt ->
  dispatch_type inst ∈ LIAB_TYPES \/ dispatch_type inst ∈ ASSET_TYPES ->
  (forall a, imp_action imp = Some a ->
     (a ∉ ({[ "margin_call"; "exercise_option"; "prepay";
              "terminate" ]}%string : gset string)) /\
     (a = "not_rollover"%string -> dispatch_type inst ∈ ASSET_TYPES) /\
     (a = "extend_maturity"%string -> imp_new_maturity imp = None)) ->
  appends cashflows portfolio as_of before imp [].
Proof.
  intros Hwf Hkind Hact. impact_header Hwf. rewrite app_nil_r.
  unfold dispatch_type in *.
  assert (Hnot : forall s a, imp_action imp = Some a ->
            s ∈ ({[ "margin_call"; "exercise_option"; "prepay";
                    "terminate" ]}%string : gset string) -> a <> s).
  { intros s a Ha Hs ->. by destruct (Hact s Ha) as [Hn _]. }
  rewrite (action_is_false _ "margin_call"),
          (action_is_false _ "exercise_option");
    [| intros a Ha; apply (Hnot _ a Ha), (bool_decide_unpack _); by vm_compute..].
  cbn [orb].
  assert (Hext : match action_is (imp_action imp) "extend_maturity",
                       imp_new_maturity imp with
                 | true, Some _ => False
                 | _, _ => True
                 end).
  { destruct (imp_action imp) as [a|] eqn:Ea; cbn; [| exact I].
    destruct (String.eqb_spec a "extend_maturity") as [->|_]; [| exact I].
    by destruct (Hact _ eq_refl) as (_ & _ & ->). }
  destruct Hkind as [Hliab|Hasset].
  - rewrite (bool_decide_eq_true_2 _ Hliab).
    rewrite action_in_false.
    + by destruct (action_is _ "extend_maturity"), (imp_new_maturity imp).
    + intros a Ha. destruct (Hact a Ha) as (Hn & Hnr & _).
      rewrite !elem_of_union, !elem_of_singleton.
      intros [[-> | ->] | ->].
      * apply Hn, (bool_decide_unpack _). by vm_compute.
      * by apply (asset_not_liability _ (Hnr eq_refl)).
      * apply Hn, (bool_decide_unpack _). by vm_compute.
  - rewrite (bool_decide_eq_false_2 _ (asset_not_liability _ Hasset)),
            (bool_decide_eq_true_2 _ Hasset).
    rewrite action_in_false.
    + by destruct (action_is _ "extend_maturity"), (imp_new_maturity imp).
    + intros a Ha. destruct (Hact a Ha) as (Hn & _ & _).
      rewrite !elem_of_union, !elem_of_singleton.
      intros [-> | ->]; apply Hn, (bool_decide_unpack _); by vm_compute.
Qed.

Lemma unhandled_action_appends_nothing_witness :
  apply_instrument_impacts_to_cashflows [sample_coupon] sample_book
    [impact_on "BND1" "not_rollover" 200 None] 0
  = [sample_coupon] /\
  apply_instrument_impacts_to_cashflows [sample_coupon] sample_book
    [impact_on "CD1" "extend_maturity" 200 None] 0
  = [sample_coupon].
Proof.
  split.
  - rewrite <- (app_nil_r [sample_coupon]) at 2.
    apply (unhandled_action_appends_nothing [sample_coupon] sample_book 0 []
             (impact_on "BND1" "not_rollover" 200 None) "BND1" sample_bond
             (5 * 86400) 200).
    + repeat split; vm_compute; reflexivity.
    + right. apply (bool_decide_unpack _). vm_compute. exact I.
    + intros a [= <-]. split; [| split].
      * apply (bool_decide_unpack _). vm_compute. exact I.
      * intros _. apply (bool_decide_unpack _). vm_compute. exact I.
      * discriminate.
  - rewrite <- (app_nil_r [sample_coupon]) at 2.
    apply (unhandled_action_appends_nothing [sample_coupon] sample_book 0 []
             (impact_on "CD1" "extend_maturity" 200 None) "CD1" sample_cd
             (5 * 86400) 200).
    + repeat split; vm_compute; reflexivity.
    + left. apply (bool_decide_unpack _). vm_compute. exact I.
    + intros a [= <-]. split; [| split].
      * apply (bool_decide_unpack _). vm_compute. exact I.
      * discriminate.
      * reflexivity.
Defined.

(** ** HQLA eligibility: what counts, and by how much *)

Section HqlaFacts.

(** The haircut loop leaves an instrument out when its notional is not
    positive, when it is a liability, or when its normalised level is none
    of the three levels. *)
Lemma hqla_step_ineligible acc inst :
  Py.float_or0 (notional inst) <= 0 \/
  lower (str_or_empty (inst_type inst)) ∈ LIAB_TYPES \/
  (let lvl := lower (strip (str_or_empty (hql_level inst))) in
   lvl <> "level 1"%string /\ lvl <> "level 2a"%string /\
   lvl <> "level 2b"%string) ->
  hqla_step acc inst = acc.
Proof.
  intros H. unfold hqla_step. destruct acc as [[l1 l2a] l2b].
  destruct (Qle_bool (Py.float_or0 (notional inst)) 0) eqn:En; [reflexivity |].
  destruct H as [H|[H|H]].
  - apply Qle_bool_iff in H. congruence.
  - rewrite (bool_decide_eq_true_2 _ H).
    assert (lower (str_or_empty (inst_type inst)) ∉ ASSET_TYPES) as Hna.
    { intros Ha. by apply (asset_not_liability _ Ha). }
    rewrite (bool_decide_eq_false_2 _ Hna).
    cbn [negb andb orb]. by rewrite andb_false_r.
  - cbv zeta in H. destruct H as (H1 & H2 & H3).
    apply String.eqb_neq in H1, H2, H3. rewrite H1, H2, H3.
    by destruct (negb _).
Qed.

(** Level 2 totals are never negative after the haircut loop. *)
Lemma hqla_haircut_level2_nonneg portfolio :
  let '(_, l2a, l2b) := hqla_haircut portfolio in 0 <= l2a /\ 0 <= l2b.
Proof.
  unfold hqla_haircut.
  assert (Hgen : forall l acc,
    (let '(_, a, b) := acc in 0 <= a /\ 0 <= b) ->
    let '(_, a, b) := fold_left hqla_step l acc in 0 <= a /\ 0 <= b).
  { induction l as [|inst l IH]; intros acc Hacc; [exact Hacc |].
    cbn [fold_left]. apply IH. destruct acc as [[l1 a] b].
    unfold hqla_step.
    destruct (Qle_bool (Py.float_or0 (notional inst)) 0) eqn:En;
      [exact Hacc |].
    assert (0 < Py.float_or0 (notional inst)) as Hn.
    { destruct (Qlt_le_dec 0 (Py.float_or0 (notional inst))) as [H|H];
        [exact H |]. apply Qle_bool_iff in H. congruence. }
    destruct (negb _); [exact Hacc |].
    repeat (destruct (String.eqb _ _); [split; lra |]). exact Hacc. }
  apply Hgen. split; lra.
Qed.

End HqlaFacts.

(** An instrument with a non-positive or missing notional, a liability,
    or an instrument whose level is none of Level 1, 2A and 2B (after
    trimming and lowercasing) does not change the stock, wherever it stands
    in the profile and whatever its tag. *)
Theorem ineligible_instrument_is_ignored
    (r : option Q) (l1 l2 : list Instrument) (inst : Instrument) :
  Py.float_or0 (notional inst) <= 0 \/
  lower (str_or_empty (inst_type inst)) ∈ LIAB_TYPES \/
  (let lvl := lower (strip (str_or_empty (hql_level inst))) in
   lvl <> "level 1"%string /\ lvl <> "level 2a"%string /\
   lvl <> "level 2b"%string) ->
  compute_hqla_eligible {| reserve := r; liquidity_profile := l1 ++ inst :: l2 |}
  = compute_hqla_eligible {| reserve := r; liquidity_profile := l1 ++ l2 |}.
Proof.
  intros H. unfold compute_hqla_eligible, hqla_levels, hqla_haircut.
  cbn [liquidity_profile reserve].
  rewrite !fold_left_app. cbn [fold_left].
  by rewrite (hqla_step_ineligible _ _ H).
Qed.

Lemma ineligible_instrument_is_ignored_witness :
  compute_hqla_eligible
    {| reserve := Some 100;
       liquidity_profile :=
         [sample_bond;
          {| inst_id := "CD2"; inst_type := Some "Retail_Deposits"%string;
             hql_level := Some "Level 1"%string; notional := Some 900;
             currency := None; stable_funding_factor := None |}] |}
  = compute_hqla_eligible
      {| reserve := Some 100; liquidity_profile := [sample_bond] |}.
Proof.
  apply (ineligible_instrument_is_ignored (Some 100) [sample_bond] []).
  right. left. apply (bool_decide_unpack _). vm_compute. exact I.
Defined.

(** The stock lies between Level 1 alone and the haircut total: the caps
    never cut into the reserve and the Level 1 assets, and never add
    value.  Both bounds are floored at zero. *)
Theorem hqla_between_level1_and_haircut_total (portfolio : Portfolio) :
  let '(l1, l2a, l2b) := hqla_haircut portfolio in
  Py.max 0 l1 <= compute_hqla_eligible portfolio /\
  compute_hqla_eligible portfolio <= Py.max 0 (l1 + l2a + l2b).
Proof.
  pose proof (hqla_haircut_level2_nonneg portfolio) as Hnn.
  unfold compute_hqla_eligible, hqla_levels.
  destruct (hqla_haircut portfolio) as [[l1 a] b]. destruct Hnn as [Ha Hb].
  destruct (Qle_bool (l1 + a + b) 0) eqn:Et.
  - apply Qle_bool_iff in Et. py_minmax; lra.
  - assert (0 < l1 + a + b) as Ht.
    { destruct (Qlt_le_dec 0 (l1 + a + b)) as [H|H]; [exact H |].
      apply Qle_bool_iff in H. congruence. }
    set (b' := if Py.Qltb (0.15 * (l1 + a + b)) b
               then 0.15 * (l1 + a + b) else b).
    assert (Hb' : 0 <= b' <= b).
    { subst b'. destruct (Py.Qltb _ b) eqn:E.
      - apply Qltb_lt in E. lra.
      - lra. }
    clearbody b'.
    destruct (Py.Qltb (0.40 * (l1 + a + b')) (a + b')) eqn:Ec.
    + apply Qltb_lt in Ec.
      assert (Heps : 0 < 1e-12) by (vm_compute; reflexivity).
      revert Heps. generalize 1e-12. intros eps Heps.
      assert (Hx : 0 <= a + b') by lra.
      assert (Hc : 0.40 * (l1 + a + b') < a + b') by exact Ec.
      assert (Hl : 0.40 * (l1 + a + b') <= 0 -> l1 <= 0) by (intros; lra).
      revert Hc Hl. generalize (0.40 * (l1 + a + b')). intros c Hc Hl.
      assert (Hcl : c <= 0 \/ 0 <= c) by (destruct (Qlt_le_dec c 0); lra).
      assert (Hinv : 0 < / (a + b' + eps)) by (apply Qinv_lt_0_compat; lra).
      assert (Hs : c / (a + b' + eps) * (a + b' + eps) == c) by (field; lra).
      revert Hs. unfold Qdiv. generalize (/ (a + b' + eps)) Hinv.
      intros i Hi Hs. clear Ec.
      assert (Hsum : l1 + a * (c * i) + b' * (c * i) == l1 + c * i * (a + b'))
        by ring.
      rewrite Hsum.
      destruct Hcl as [Hneg|Hpos].
      * assert (c * i <= 0) by nra. assert (c * i * (a + b') <= 0) by nra.
        specialize (Hl Hneg).
        py_minmax; lra.
      * assert (0 <= c * i) by nra. assert (c * i <= 1) by nra.
        assert (0 <= c * i * (a + b') <= a + b') by nra.
        py_minmax; lra.
    + apply Qltb_ge in Ec. py_minmax; lra.
Qed.

(** ** Behavioural series estimator *)

Section BehaviouralFacts.

Lemma on_days_cases first last i :
  ((first <= i <= last)%Z /\ on_days first last i = 1) \/
  (~ (first <= i <= last)%Z /\ on_days first last i = 0).
Proof.
  unfold on_days.
  destruct (Z.leb_spec first i), (Z.leb_spec i last); cbn;
    [left | right | right | right]; split; (reflexivity || lia).
Qed.

(** Spreading an amount over consecutive days adds it to the outflow of
    each of those days, leaves the inflows alone, and creates a bucket on
    each of those days. *)
Lemma spread_out_nat daily asof first (n : nat) amt d :
  let r := spread_out daily asof first (Z.of_nat n) amt in
  get_out r d
  == get_out daily d
     + on_days first (first + Z.of_nat n - 1) (d - date_of asof) * amt /\
  get_in r d = get_in daily d /\
  (d ∈ dom r <->
   d ∈ dom daily \/ (first <= d - date_of asof <= first + Z.of_nat n - 1)%Z).
Proof.
  cbv zeta. unfold spread_out. induction n as [|n IH].
  - rewrite seqZ_nil by lia. cbn [fold_left].
    destruct (on_days_cases first (first + Z.of_nat 0 - 1) (d - date_of asof))
      as [[H _]|[_ ->]]; [lia |].
    split; [lra |]. split; [reflexivity |]. split; [by left |].
    intros [H|H]; [exact H | lia].
  - rewrite seqZ_S, fold_left_app. cbn [fold_left].
    destruct IH as (Ho & Hi & Hd).
    set (m := fold_left _ (seqZ first (Z.of_nat n)) daily) in *.
    rewrite date_of_days.
    rewrite !get_out_bucket_at, !get_in_bucket_at in *.
    rewrite bucket_at_add_out. unfold add_out. rewrite dom_insert_L.
    destruct (on_days_cases first (first + Z.of_nat n - 1) (d - date_of asof))
      as [[Hr E]|[Hr E]]; rewrite E in Ho;
    destruct (on_days_cases first (first + Z.of_nat (S n) - 1) (d - date_of asof))
      as [[Hr' ->]|[Hr' ->]];
    destruct (decide (date_of asof + (first + Z.of_nat n) = d)%Z) as [Hk|Hk];
      try lia; cbn [b_in b_out]; rewrite ?Ho;
      (split; [lra |]); (split; [exact Hi |]);
      rewrite elem_of_union, elem_of_singleton, Hd;
      split; intros; intuition lia.
Qed.

Lemma spread_out_facts daily asof first count amt d :
  (0 <= count)%Z ->
  let r := spread_out daily asof first count amt in
  get_out r d
  == get_out daily d + on_days first (first + count - 1) (d - date_of asof) * amt /\
  get_in r d = get_in daily d /\
  (d ∈ dom r <->
   d ∈ dom daily \/ (first <= d - date_of asof <= first + count - 1)%Z).
Proof.
  intros Hc. pose proof (spread_out_nat daily asof first (Z.to_nat count) amt d)
    as H.
  by rewrite Z2Nat.id in H.
Qed.

Lemma positive_part_spread daily asof first count x k d :
  (0 <= count)%Z -> 0 < k ->
  let r := if Py.Qltb 0 x then spread_out daily asof first count (x / k)
           else daily in
  get_out r d
  == get_out daily d
     + on_days first (first + count - 1) (d - date_of asof)
       * (positive_part x / k) /\
  get_in r d = get_in daily d.
Proof.
  intros Hc Hk. cbv zeta. unfold positive_part.
  destruct (Py.Qltb 0 x).
  - destruct (spread_out_facts daily asof first count (x / k) d Hc)
      as (Ho & Hi & _). split; [exact Ho | exact Hi].
  - split; [| reflexivity].
    assert (0 / k == 0) as -> by (field; lra). lra.
Qed.

End BehaviouralFacts.

(** The behavioural series is outflow only, and its outflow on the day [i]
    days after the anchor is the runoff and the 30-day non-roll share on
    days 1-30, the 90-day share on days 31-90 and the margin share on days
    1-7, whatever the horizon passed; no other day carries an outflow. *)
Theorem behavioural_series_by_day
    (portfolio : Portfolio) (as_of : Z) (behavior : BehaviorParameters)
    (horizon_days d : Z) :
  let r := estimate_behavioral_series_detail portfolio as_of behavior
             horizon_days in
  get_out r d == behavioural_day_out portfolio behavior (d - date_of as_of) /\
  get_in r d == 0.
Proof.
  cbv zeta. unfold estimate_behavioral_series_detail, behavioural_day_out.
  set (i := (d - date_of as_of)%Z).
  set (run := behavioral_runoff_amt portfolio behavior).
  set (o30 := behavioral_out_30 portfolio behavior).
  set (o90 := behavioral_out_90 portfolio behavior).
  set (mt := behavioral_margin_total portfolio behavior).
  set (d1 := if Py.Qltb 0 run then spread_out ∅ as_of 1 30 (run / 30.0) else ∅).
  set (d2 := spread_out d1 as_of 1 30 (o30 / 30.0)).
  set (d3 := spread_out d2 as_of 31 60 (o90 / 60.0)).
  destruct (positive_part_spread ∅ as_of 1 30 run 30.0 d) as [O1 I1];
    [lia | reflexivity |].
  destruct (spread_out_facts d1 as_of 1 30 (o30 / 30.0) d) as (O2 & I2 & _);
    [lia |].
  destruct (spread_out_facts d2 as_of 31 60 (o90 / 60.0) d) as (O3 & I3 & _);
    [lia |].
  destruct (positive_part_spread d3 as_of 1 7 mt 7.0 d) as [O4 I4];
    [lia | reflexivity |].
  fold d1 in O1, I1. fold d2 in O2, I2. fold d3 in O3, I3.
  fold i in O1, O2, O3, O4.
  change (1 + 30 - 1)%Z with 30%Z in *. change (31 + 60 - 1)%Z with 90%Z in *.
  change (1 + 7 - 1)%Z with 7%Z in *.
  rewrite O4, O3, O2, O1, I4, I3, I2, I1.
  unfold get_out, get_in. rewrite lookup_empty.
  generalize (on_days 1 30 i) (on_days 31 90 i) (on_days 1 7 i)
             (positive_part run) (positive_part mt).
  intros. split; [field | reflexivity].
Qed.

(** The behavioural series has a bucket on each of the 90 days after the
    anchor and on no other day, even when every overlay is zero and even
    when the horizon is shorter. *)
Theorem behavioural_series_dates
    (portfolio : Portfolio) (as_of : Z) (behavior : BehaviorParameters)
    (horizon_days d : Z) :
  d ∈ dom (estimate_behavioral_series_detail portfolio as_of behavior
             horizon_days)
  <-> (1 <= d - date_of as_of <= 90)%Z.
Proof.
  unfold estimate_behavioral_series_detail.
  set (d1 := if Py.Qltb 0 _ then spread_out ∅ as_of 1 30 _ else ∅).
  set (d2 := spread_out d1 as_of 1 30 _).
  set (d3 := spread_out d2 as_of 31 60 _).
  assert (H1 : d ∈ dom d1 -> (1 <= d - date_of as_of <= 30)%Z).
  { subst d1. destruct (Py.Qltb 0 _).
    - intros H. apply spread_out_facts in H; [| lia].
      destruct H as [H|H]; [by rewrite dom_empty_L in H | lia].
    - rewrite dom_empty_L. intros []%not_elem_of_empty. }
  assert (H3 : d ∈ dom d3 <-> (1 <= d - date_of as_of <= 90)%Z).
  { subst d3. rewrite (proj2 (proj2 (spread_out_facts d2 as_of 31 60 _ d
                                        ltac:(lia)))).
    subst d2. rewrite (proj2 (proj2 (spread_out_facts d1 as_of 1 30 _ d
                                       ltac:(lia)))).
    split.
    - intros [[H|H]|H]; [apply H1 in H; lia | lia | lia].
    - intros H.
      destruct (Z_le_gt_dec (d - date_of as_of) 30); [left; right | right];
        lia. }
  destruct (Py.Qltb 0 (behavioral_margin_total portfolio behavior));
    [| exact H3].
  rewrite (proj2 (proj2 (spread_out_facts d3 as_of 1 7 _ d ltac:(lia)))).
  rewrite H3. split; [intros [H|H] | intros H; left]; lia.
Qed.

(** ** Size proxies, and the bases the behavioural overlays use *)

Section ProxyFacts.

Lemma size_fold (l : list Instrument) (acc : SizeProxies) :
  let r := fold_left size_step l acc in
  deposit_base r == deposit_base acc + typed_notional DEPOSIT_TYPES l /\
  wholesale_base r == wholesale_base acc + typed_notional WHOLESALE_TYPES l /\
  ir_notionals r == ir_notionals acc + typed_notional IR_TYPES l /\
  fx_notionals r == fx_notionals acc + typed_notional FX_TYPES l.
Proof.
  cbv zeta. revert acc. induction l as [|inst l IH]; intros acc.
  - cbn. repeat split; lra.
  - cbn [fold_left]. destruct (IH (size_step acc inst)) as (Hd & Hw & Hi & Hf).
    rewrite Hd, Hw, Hi, Hf. unfold typed_notional. cbn [foldr].
    unfold size_step.
    cbn [deposit_base wholesale_base ir_notionals fx_notionals].
    repeat split;
      match goal with |- context [type_in ?t ?ss] => destruct (type_in t ss) end;
      lra.
Qed.

Lemma wholesale_fold (l : list Instrument) (acc : Q) :
  fold_left wholesale_step l acc == acc + typed_notional WHOLESALE_TYPES l.
Proof.
  revert acc. induction l as [|inst l IH]; intros acc.
  - cbn. lra.
  - cbn [fold_left]. rewrite IH. unfold typed_notional, wholesale_step.
    cbn [foldr]. destruct (type_in _ _); lra.
Qed.

Lemma margin_fold (l : list Instrument) (ir fx : Q) :
  let '(ir', fx') := fold_left margin_step l (ir, fx) in
  ir' == ir + typed_notional IR_TYPES l /\
  fx' == fx + typed_notional FX_TYPES l.
Proof.
  revert ir fx. induction l as [|inst l IH]; intros ir fx.
  - cbn. split; lra.
  - cbn [fold_left]. unfold margin_step at 2.
    specialize (IH (if type_in (inst_type inst) IR_TYPES
                    then ir + Py.float_or0 (notional inst) else ir)
                   (if type_in (inst_type inst) FX_TYPES
                    then fx + Py.float_or0 (notional inst) else fx)).
    destruct (fold_left margin_step l _) as [ir' fx'].
    destruct IH as [Hi Hf]. rewrite Hi, Hf. clear Hi Hf.
    unfold typed_notional. cbn [foldr].
    generalize (Py.float_or0 (notional inst)). intros n.
    split.
    + generalize (foldr (fun inst0 acc =>
                    (if type_in (inst_type inst0) IR_TYPES
                     then Py.float_or0 (notional inst0) else 0) + acc) 0 l).
      intros t. destruct (type_in (inst_type inst) IR_TYPES); lra.
    + generalize (foldr (fun inst0 acc =>
                    (if type_in (inst_type inst0) FX_TYPES
                     then Py.float_or0 (notional inst0) else 0) + acc) 0 l).
      intros t. destruct (type_in (inst_type inst) FX_TYPES); lra.
Qed.

(** The adjusted deposit base lies between the plain deposit base and 1.75
    times it, when no notional is negative. *)
Lemma deposit_fold (l : list Instrument) (acc : Q) :
  (forall inst, inst ∈ l -> 0 <= Py.float_or0 (notional inst)) ->
  acc + typed_notional DEPOSIT_TYPES l <= fold_left dep_step l acc
  <= acc + 1.75 * typed_notional DEPOSIT_TYPES l.
Proof.
  revert acc. induction l as [|inst l IH]; intros acc Hnn.
  - cbn. split; lra.
  - cbn [fold_left].
    destruct (IH (dep_step acc inst)) as [Hlo Hhi].
    { intros i Hi. apply Hnn. by apply list_elem_of_further. }
    assert (Hn : 0 <= Py.float_or0 (notional inst))
      by apply Hnn, list_elem_of_here.
    revert Hlo Hhi. unfold typed_notional, dep_step. cbn [foldr].
    generalize (foldr (fun inst acc =>
                  (if type_in (inst_type inst) DEPOSIT_TYPES
                   then Py.float_or0 (notional inst) else 0) + acc) 0 l).
    generalize (Py.float_or0 (notional inst)) Hn. intros n Hn' t.
    generalize (default 0.6 (stable_funding_factor inst)). intros sff.
    generalize (fold_left dep_step l). intros f.
    destruct (type_in _ _).
    + generalize (f (acc + n * (1.0 + 0.75 * (1.0 - Py.max 0.0 (Py.min 1.0 sff))))).
      intros v Hlo Hhi.
      assert (Hc : 0 <= Py.max 0.0 (Py.min 1.0 sff) <= 1) by (py_minmax; lra).
      revert Hc Hlo Hhi. generalize (Py.max 0.0 (Py.min 1.0 sff)).
      intros c Hc Hlo Hhi. split; nra.
    + intros Hlo Hhi. split; lra.
Qed.

End ProxyFacts.

(** The wholesale and margin overlays are sized on exactly the wholesale
    base and the IR and FX notionals that [compute_size_proxies] reports;
    the deposit overlay is sized on an adjusted base that lies between the
    reported deposit base and 1.75 times it when no notional is
    negative. *)
Theorem overlays_are_sized_on_the_proxies
    (portfolio : Portfolio) (behavior : BehaviorParameters) :
  let px := compute_size_proxies portfolio in
  behavioral_out_30 portfolio behavior
  == wholesale_base px * notroll_prob_30d behavior * 0.5 /\
  behavioral_out_90 portfolio behavior
  == wholesale_base px
     * Py.max 0.0 (notroll_prob_90d behavior - notroll_prob_30d behavior)
     * 0.5 /\
  behavioral_margin_total portfolio behavior
  == 0.001 * (ir_notionals px + fx_notionals px) * margin_factor behavior /\
  ((forall inst, inst ∈ liquidity_profile portfolio ->
                 0 <= Py.float_or0 (notional inst)) ->
   deposit_base px
   <= fold_left dep_step (liquidity_profile portfolio) 0.0
   <= 1.75 * deposit_base px).
Proof.
  cbv zeta. unfold compute_size_proxies.
  destruct (size_fold (liquidity_profile portfolio)
              {| deposit_base := 0.0; wholesale_base := 0.0;
                 ir_notionals := 0.0; fx_notionals := 0.0 |})
    as (Hd & Hw & Hi & Hf).
  cbn [deposit_base wholesale_base ir_notionals fx_notionals] in Hd, Hw, Hi, Hf.
  rewrite Hd, Hw, Hi, Hf.
  unfold behavioral_out_30, behavioral_out_90, behavioral_margin_total.
  rewrite wholesale_fold.
  pose proof (margin_fold (liquidity_profile portfolio) 0.0 0.0) as Hm.
  destruct (fold_left margin_step _ _) as [ir fx]. destruct Hm as [Mi Mf].
  rewrite Mi, Mf.
  repeat apply conj; try lra.
  intros Hnn.
  destruct (deposit_fold (liquidity_profile portfolio) 0.0 Hnn). split; lra.
Qed.

Lemma overlays_are_sized_on_the_proxies_witness :
  deposit_base (compute_size_proxies sample_book)
  <= fold_left dep_step (liquidity_profile sample_book) 0.0
  <= 1.75 * deposit_base (compute_size_proxies sample_book).
Proof.
  destruct (overlays_are_sized_on_the_proxies sample_book
              (scenario_to_behavior_params
                 {| vix := None; credit_spreads_baa := None;
                    credit_spreads_hy := None; us10y_yield := None |} "base"))
    as (_ & _ & _ & H).
  apply H. intros inst Hin.
  repeat (apply elem_of_cons in Hin as [->|Hin];
          [vm_compute; discriminate |]).
  by apply not_elem_of_nil in Hin.
Defined.

(** ** Gap to targets *)

Section GapFacts.

Lemma round_half_even_close x :
  x - (1 # 2) <= inject_Z (round_half_even x) <= x + (1 # 2).
Proof.
  unfold round_half_even.
  pose proof (Qfloor_le x) as Hlo. pose proof (Qlt_floor x) as Hhi.
  rewrite inject_Z_plus in Hhi.
  change (inject_Z 1) with 1 in Hhi.
  destruct (Py.Qltb (x - inject_Z (Qfloor x)) (1 # 2)) eqn:E1.
  - apply Qltb_lt in E1. split; lra.
  - apply Qltb_ge in E1.
    destruct (Py.Qltb (1 # 2) (x - inject_Z (Qfloor x))) eqn:E2.
    + rewrite inject_Z_plus. change (inject_Z 1) with 1. split; lra.
    + apply Qltb_ge in E2. destruct (Z.even (Qfloor x)).
      * split; lra.
      * rewrite inject_Z_plus. change (inject_Z 1) with 1. split; lra.
Qed.

Lemma round_half_even_nonneg x : 0 <= x -> (0 <= round_half_even x)%Z.
Proof.
  intros Hx. unfold round_half_even.
  assert (0 <= Qfloor x)%Z as Hf.
  { change 0%Z with (Qfloor 0). by apply Qfloor_resp_le. }
  destruct (Py.Qltb _ _); [exact Hf |].
  destruct (Py.Qltb _ _); [lia |].
  destruct (Z.even _); lia.
Qed.

(** Rounding to cents keeps a non-negative amount non-negative and moves
    an amount by at most half a cent. *)
Lemma py_round_2 x :
  (0 <= x -> 0 <= py_round x 2) /\
  x - 0.005 <= py_round x 2 <= x + 0.005.
Proof.
  unfold py_round. change (inject_Z (10 ^ Z.of_nat 2)) with 100.
  pose proof (round_half_even_close (x * 100)) as Hc.
  split.
  - intros Hx.
    assert (0 <= round_half_even (x * 100))%Z as Hn
      by (apply round_half_even_nonneg; lra).
    assert (0 <= inject_Z (round_half_even (x * 100))) as Hq.
    { change 0 with (inject_Z 0). by rewrite <- Zle_Qle. }
    revert Hq. generalize (inject_Z (round_half_even (x * 100))).
    intros r Hr. unfold Qdiv. change (/ 100) with 0.01. lra.
  - revert Hc. generalize (inject_Z (round_half_even (x * 100))).
    intros r Hr. unfold Qdiv. change (/ 100) with 0.01. split; lra.
Qed.

Lemma py_round_0 : py_round 0.0 2 == 0.
Proof. vm_compute. reflexivity. Qed.

End GapFacts.

(** Whatever the KPI dict holds, the three reported amounts are
    non-negative and within half a cent of the amounts before rounding;
    the binding metric is "lcr" exactly when the ratio read from the dict
    (zero when absent) is below the target, and a binding metric "none"
    comes with a binding gap of zero. *)
Theorem gaps_are_nonnegative
    (kpis : KpiDict) (lcr_target : Q) (target_days : Z) :
  let g := compute_gap_to_targets kpis lcr_target target_days in
  (0 <= addl_hqla_needed_for_lcr_target_usd g /\
   0 <= addl_hqla_needed_for_survival_target_usd g /\
   0 <= binding_gap_usd g) /\
  (lcr_gap kpis lcr_target - 0.005
   <= addl_hqla_needed_for_lcr_target_usd g
   <= lcr_gap kpis lcr_target + 0.005 /\
   survival_gap kpis - 0.005
   <= addl_hqla_needed_for_survival_target_usd g
   <= survival_gap kpis + 0.005) /\
  (binding_metric g = "lcr"%string <-> default 0.0 (kd_lcr kpis) < lcr_target) /\
  (binding_metric g = "none"%string -> binding_gap_usd g == 0).
Proof.
  cbv zeta. unfold compute_gap_to_targets.
  assert (Hl : 0 <= lcr_gap kpis lcr_target).
  { unfold lcr_gap. apply Qle_trans with 0.0; [lra | apply max_ge_l]. }
  assert (Hs : 0 <= survival_gap kpis).
  { unfold survival_gap. apply Qle_trans with 0.0; [lra | apply max_ge_l]. }
  destruct (py_round_2 (lcr_gap kpis lcr_target)) as [Nl [Cl1 Cl2]].
  destruct (py_round_2 (survival_gap kpis)) as [Ns [Cs1 Cs2]].
  destruct (Py.Qltb (default 0.0 (kd_lcr kpis)) lcr_target) eqn:E1.
  - apply Qltb_lt in E1.
    cbn [addl_hqla_needed_for_lcr_target_usd
         addl_hqla_needed_for_survival_target_usd binding_gap_usd
         binding_metric].
    repeat apply conj; auto; try discriminate.
  - apply Qltb_ge in E1.
    destruct (default target_days (kd_survival_days kpis) <? target_days)%Z;
      cbn [addl_hqla_needed_for_lcr_target_usd
           addl_hqla_needed_for_survival_target_usd binding_gap_usd
           binding_metric];
      repeat apply conj; auto; try discriminate;
      try (intros; rewrite ?py_round_0; lra).
Qed.

(** For KPIs computed over a horizon equal to the survival target, a
    binding metric always has a strictly positive shortfall before
    rounding: "lcr" means the stock is below the target times the worst
    outflow, "survival" means it is below the peak cumulative outflow;
    "none" means the stock covers the LCR target and survives the
    horizon. *)
Theorem binding_metric_has_a_shortfall
    (detail : gmap Z Bucket) (as_of : Z) (hqla_base : Q) (horizon_days : Z)
    (lcr_target : Q) :
  let k := compute_kpis_from_daily_detail detail as_of hqla_base horizon_days in
  let g := compute_gap_to_targets (kpi_dict k) lcr_target horizon_days in
  (binding_metric g = "lcr"%string -> 0 < lcr_gap (kpi_dict k) lcr_target) /\
  (binding_metric g = "survival"%string -> 0 < survival_gap (kpi_dict k)) /\
  (binding_metric g = "none"%string ->
   lcr_target * worst_30d_outflow k <= hqla_base /\
   survival_days k = horizon_days).
Proof.
  cbv zeta.
  pose proof (kpis_scan_facts detail as_of hqla_base horizon_days)
    as (peak & survival & Hp & Hsd & Hfound & _ & Hub & _).
  assert (Hbound : (survival_days
            (compute_kpis_from_daily_detail detail as_of hqla_base horizon_days)
            <= horizon_days)%Z).
  { rewrite Hsd. unfold scan_found in Hfound. destruct survival as [s|]; lia. }
  assert (Hshort : (survival_days
            (compute_kpis_from_daily_detail detail as_of hqla_base horizon_days)
            < horizon_days)%Z -> hqla_base < peak).
  { rewrite Hsd. unfold scan_found in Hfound. destruct survival as [s|];
      [| lia].
    destruct Hfound as (Hs & Hex & _). specialize (Hub s Hs). intros _. lra. }
  revert Hp Hbound Hshort.
  unfold compute_gap_to_targets, lcr_gap, survival_gap, kpi_dict.
  cbn [kd_hqla kd_worst_30d_outflow kd_lcr kd_survival_days
       kd_peak_cumulative_outflow].
  change (default ?x (Some ?y)) with y.
  unfold compute_kpis_from_daily_detail.
  destruct (survival_loop _ _ _ _) as [[cum pk] sv].
  cbn [hqla worst_30d_outflow lcr survival_days peak_cumulative_outflow].
  pose proof (worst_30_ge_1 (get_in detail <$> kpi_days as_of horizon_days)
                (get_out detail <$> kpi_days as_of horizon_days)
                (length (kpi_days as_of horizon_days))) as Hw.
  revert Hw. generalize (worst_30_loop (get_in detail <$> kpi_days as_of horizon_days)
                (get_out detail <$> kpi_days as_of horizon_days)
                (length (kpi_days as_of horizon_days))).
  intros w Hw -> Hbound Hshort.
  assert (Hdiv : hqla_base / w * w == hqla_base) by (field; lra).
  revert Hdiv. generalize (hqla_base / w). intros q Hq.
  destruct (Py.Qltb q lcr_target) eqn:E1.
  - apply Qltb_lt in E1. cbn [binding_metric].
    repeat apply conj; try discriminate. intros _.
    assert (0 < lcr_target * w - hqla_base) by nra.
    py_minmax; lra.
  - apply Qltb_ge in E1.
    destruct (_ <? horizon_days)%Z eqn:E2; cbn [binding_metric];
      repeat apply conj; try discriminate.
    + intros _. apply Z.ltb_lt in E2. specialize (Hshort E2).
      py_minmax; lra.
    + intros _. split.
      * rewrite <- Hq. apply Qmult_le_compat_r; [exact E1 | lra].
      * apply Z.ltb_ge in E2. lia.
Qed.
